(** * A shallow embedding of [client.c]

    The program is a one-shot TCP client: it validates three command-line
    arguments, resolves a numeric address, connects, sends one
    length-prefixed command, performs one receive, prints what arrived and
    closes the socket.

    Layout of this development:
    - [Libc]: executable models of the C library functions whose results
      decide the program's control flow ([strlen], [strtoumax], [getopt],
      [inet_pton]);
    - [Sys]: the process model: events, outcomes, the operating
      environment, and a small writer/exit monad;
    - [Client]: the functions of [client.c], one definition per C function,
      in the order of the source;
    - [Notions]: the vocabulary of the statements (numerals, usage errors,
      sample environments);
    - [Coverage]: further vocabulary (option scan, stages and calls of a
      run);
    - facts about the library models, then the properties of the client:
      port validation, framing, address resolution, whole runs, and in
      [CoverageFacts] the handling of the arguments, the stages of a run and
      its outcomes. *)

From Stdlib Require Import ZArith List String Ascii Bool Lia DecimalString
  DecimalPos.
Import ListNotations.

Local Open Scope string_scope.
Local Open Scope list_scope.
Local Open Scope Z_scope.

(* ===================================================================== *)
(** * The C library, as far as the client depends on it                   *)
(* ===================================================================== *)

Module Libc.

(** A C string is a [string]; the terminating NUL is implicit.  Should a
    NUL occur inside the text, the C functions stop there, and so do the
    models below. *)

Definition NUL : ascii := Ascii.zero.

Definition code (c : ascii) : Z := Z.of_N (N_of_ascii c).

(** [*p] for a pointer [p] into a C string. *)
Definition deref (p : string) : ascii :=
  match p with
  | EmptyString => NUL
  | String c _ => c
  end.

Definition is_nul (c : ascii) : bool := code c =? 0.

(** [strlen]: the number of characters before the first NUL. *)
Fixpoint strlen (s : string) : nat :=
  match s with
  | EmptyString => O
  | String c r => if is_nul c then O else S (strlen r)
  end.

(** The characters of a C string up to [n] of them, as bytes. *)
Fixpoint bytes_of (n : nat) (s : string) : list Z :=
  match n, s with
  | S k, String c r => code c :: bytes_of k r
  | _, _ => []
  end.

(** ** <ctype.h> in the C locale *)

Definition isspace (c : ascii) : bool :=
  (code c =? 32) || ((9 <=? code c) && (code c <=? 13)).

Definition isdigit (c : ascii) : bool :=
  (48 <=? code c) && (code c <=? 57).

Definition digit_value (c : ascii) : Z := code c - 48.

(** ** <inttypes.h>: [strtoumax] in base ten

    ISO C 7.8.2.3 / 7.22.1.4: skip white space, take an optional sign,
    then the longest run of digits.  Without any digit no conversion is
    performed: the result is 0 and [endptr] is [nptr].  A value that does
    not fit yields [UINTMAX_MAX] with [errno = ERANGE]; a minus sign
    negates the converted value in the unsigned type. *)

Definition UINTMAX_MAX : Z := 2 ^ 64 - 1.
Definition UINT16_MAX : Z := 65535.
Definition ERANGE : Z := 34.

Fixpoint skip_space (s : string) : string :=
  match s with
  | EmptyString => s
  | String c r => if isspace c then skip_space r else s
  end.

(** The sign, if any, and the text after it. *)
Definition take_sign (s : string) : bool * string :=
  match s with
  | EmptyString => (false, s)
  | String c r =>
      if Ascii.eqb c "-" then (true, r)
      else if Ascii.eqb c "+" then (false, r)
      else (false, s)
  end.

(** Accumulate the digits at the front of [s]; the middle component tells
    whether there was at least one. *)
Fixpoint scan_digits (acc : Z) (any : bool) (s : string) : Z * bool * string :=
  match s with
  | EmptyString => (acc, any, s)
  | String c r =>
      if isdigit c then scan_digits (acc * 10 + digit_value c) true r
      else (acc, any, s)
  end.

Record strtoumax_t := {
  st_value : Z;        (* the returned uintmax_t *)
  st_endptr : string;  (* the text [endptr] points at *)
  st_errno : Z         (* errno afterwards, the caller having cleared it *)
}.

Definition strtoumax (nptr : string) : strtoumax_t :=
  let (neg, body) := take_sign (skip_space nptr) in
  let '(v, any, rest) := scan_digits 0 false body in
  if negb any then
    {| st_value := 0; st_endptr := nptr; st_errno := 0 |}
  else if v >? UINTMAX_MAX then
    {| st_value := UINTMAX_MAX; st_endptr := rest; st_errno := ERANGE |}
  else
    {| st_value := if neg then (2 ^ 64 - v) mod 2 ^ 64 else v;
       st_endptr := rest; st_errno := 0 |}.

(** ** <unistd.h>: the first call of [getopt]

    The client leaves the scan after one call (every value other than -1
    ends the process), so the model covers a call made with the initial
    state [optind = 1], without a pending option cluster, and with
    [opterr = 0].  It follows the GNU C library in its default mode
    ([POSIXLY_CORRECT] unset, [optstring] without a leading '+' or '-'):
    leading operands are skipped, the first option element is examined, and
    a "--" is moved in front of the operands skipped so far. *)

(** [p + 1] for a pointer into a C string. *)
Definition next (p : string) : string :=
  match p with
  | EmptyString => EmptyString
  | String _ r => r
  end.

(** The text of a C string: everything before the first NUL. *)
Fixpoint cstr (s : string) : string :=
  match s with
  | EmptyString => EmptyString
  | String c r => if is_nul c then EmptyString else String c (cstr r)
  end.

Definition strcmp_eq (a b : string) : bool := String.eqb (cstr a) (cstr b).

(** An element that is no option: it does not start with '-', or it is
    the lone "-". *)
Definition nonoption (elt : string) : bool :=
  negb (Ascii.eqb (deref elt) "-") || is_nul (deref (next elt)).

Fixpoint skip_nonoptions (args : list string) : list string * list string :=
  match args with
  | [] => ([], [])
  | a :: rest =>
      if nonoption a then
        let (ops, tl) := skip_nonoptions rest in (a :: ops, tl)
      else ([], args)
  end.

(** [strchr]: the suffix of [s] that starts at the first [c]. *)
Fixpoint strchr (s : string) (c : ascii) : option string :=
  match s with
  | EmptyString => None
  | String d r =>
      if is_nul d then None
      else if Ascii.eqb d c then Some s
      else strchr r c
  end.

Record getopt_t := {
  go_ret : Z;                 (* the value returned: a character or -1 *)
  go_optopt : Z;              (* optopt *)
  go_optarg : option string;  (* optarg *)
  go_optind : nat;            (* optind *)
  go_argv : list string       (* argv, possibly permuted *)
}.

Definition QUESTION : Z := code "?".

Definition getopt (argv0 : string) (args : list string) (optstring : string)
  : getopt_t :=
  let (ops, tl) := skip_nonoptions args in
  let i := S (List.length ops) in       (* index of the element looked at *)
  match tl with
  | [] =>
      {| go_ret := -1; go_optopt := QUESTION; go_optarg := None;
         go_optind := 1; go_argv := argv0 :: args |}
  | elt :: after =>
      if strcmp_eq elt "--" then
        {| go_ret := -1; go_optopt := QUESTION; go_optarg := None;
           go_optind := 2; go_argv := argv0 :: elt :: ops ++ after |}
      else
        let c := deref (next elt) in
        let nextchar := next (next elt) in
        let optind := if is_nul (deref nextchar) then S i else i in
        match strchr optstring c with
        | None =>
            {| go_ret := QUESTION; go_optopt := code c; go_optarg := None;
               go_optind := optind; go_argv := argv0 :: args |}
        | Some temp =>
            if Ascii.eqb c ":" || Ascii.eqb c ";" then
              {| go_ret := QUESTION; go_optopt := code c; go_optarg := None;
                 go_optind := optind; go_argv := argv0 :: args |}
            else if Ascii.eqb (deref (next temp)) ":" then
              if Ascii.eqb (deref (next (next temp))) ":" then
                (* an option with an optional argument *)
                if negb (is_nul (deref nextchar)) then
                  {| go_ret := code c; go_optopt := QUESTION;
                     go_optarg := Some nextchar;
                     go_optind := S optind; go_argv := argv0 :: args |}
                else
                  {| go_ret := code c; go_optopt := QUESTION;
                     go_optarg := None;
                     go_optind := optind; go_argv := argv0 :: args |}
              else
                (* an option that requires an argument *)
                if negb (is_nul (deref nextchar)) then
                  {| go_ret := code c; go_optopt := QUESTION;
                     go_optarg := Some nextchar;
                     go_optind := S optind; go_argv := argv0 :: args |}
                else
                  match after with
                  | [] =>
                      {| go_ret :=
                           if Ascii.eqb (deref optstring) ":" then code ":"
                           else QUESTION;
                         go_optopt := code c; go_optarg := None;
                         go_optind := optind; go_argv := argv0 :: args |}
                  | arg :: _ =>
                      {| go_ret := code c; go_optopt := QUESTION;
                         go_optarg := Some arg;
                         go_optind := S optind; go_argv := argv0 :: args |}
                  end
            else
              {| go_ret := code c; go_optopt := QUESTION; go_optarg := None;
                 go_optind := optind; go_argv := argv0 :: args |}
        end
  end.

(** ** <arpa/inet.h>: [inet_pton]

    The presentation formats accepted are those of the reference
    implementation shared by the BSDs and the GNU C library: a dotted quad
    of decimal octets without leading zeros for [AF_INET]; for [AF_INET6]
    up to eight groups of at most four hexadecimal digits, at most one
    "::", and optionally a dotted quad in the last four bytes. *)

Definition AF_INET : Z := 2.
Definition AF_INET6 : Z := 10.

Definition NS_INADDRSZ : nat := 4.
Definition NS_IN6ADDRSZ : nat := 16.

Definition pton4_finish (done : list Z) (cur : Z) (octets : nat)
  : option (list Z) :=
  if (octets <? 4)%nat then None else Some (done ++ [cur]).

(** [done] holds the octets completed so far, [cur] is [*tp]. *)
Fixpoint pton4_loop (s : string) (done : list Z) (cur : Z)
    (saw_digit : bool) (octets : nat) : option (list Z) :=
  match s with
  | EmptyString => pton4_finish done cur octets
  | String ch r =>
      if is_nul ch then pton4_finish done cur octets
      else if isdigit ch then
        let new := cur * 10 + digit_value ch in
        if saw_digit && (cur =? 0) then None
        else if new >? 255 then None
        else if saw_digit then pton4_loop r done new true octets
        else if (4 <? S octets)%nat then None
        else pton4_loop r done new true (S octets)
      else if Ascii.eqb ch "." && saw_digit then
        if (octets =? 4)%nat then None
        else pton4_loop r (done ++ [cur]) 0 false octets
      else None
  end.

Definition inet_pton4 (src : string) : option (list Z) :=
  pton4_loop src [] 0 false 0.

Definition hex_digit_value (ch : ascii) : option Z :=
  let n := code ch in
  if (48 <=? n) && (n <=? 57) then Some (n - 48)
  else if (97 <=? n) && (n <=? 102) then Some (n - 97 + 10)
  else if (65 <=? n) && (n <=? 70) then Some (n - 65 + 10)
  else None.

(** The two bytes of a 16-bit group, most significant first. *)
Definition group_bytes (val : Z) : list Z :=
  [Z.land (Z.shiftr val 8) 255; Z.land val 255].

(** [tp] holds the bytes written so far; [colonp] is the position of the
    "::", if one was seen. *)
Definition pton6_finish (tp : list Z) (colonp : option nat)
    (xdigits_seen : nat) (val : Z) : option (list Z) :=
  let flushed :=
    if (0 <? xdigits_seen)%nat then
      if (NS_IN6ADDRSZ <? List.length tp + 2)%nat then None
      else Some (tp ++ group_bytes val)
    else Some tp in
  match flushed with
  | None => None
  | Some tp' =>
      match colonp with
      | Some k =>
          if (List.length tp' =? NS_IN6ADDRSZ)%nat then None
          else Some (firstn k tp'
                       ++ repeat 0 (NS_IN6ADDRSZ - List.length tp')
                       ++ skipn k tp')
      | None =>
          if (List.length tp' =? NS_IN6ADDRSZ)%nat then Some tp' else None
      end
  end.

Fixpoint pton6_loop (s curtok : string) (tp : list Z) (colonp : option nat)
    (xdigits_seen : nat) (val : Z) : option (list Z) :=
  match s with
  | EmptyString => pton6_finish tp colonp xdigits_seen val
  | String ch r =>
      if is_nul ch then pton6_finish tp colonp xdigits_seen val
      else
        match hex_digit_value ch with
        | Some digit =>
            if (xdigits_seen =? 4)%nat then None
            else
              let val' := Z.lor (Z.shiftl val 4) digit in
              if val' >? 65535 then None
              else pton6_loop r curtok tp colonp (S xdigits_seen) val'
        | None =>
            if Ascii.eqb ch ":" then
              if (xdigits_seen =? 0)%nat then
                match colonp with
                | Some _ => None
                | None => pton6_loop r r tp (Some (List.length tp)) 0 val
                end
              else if is_nul (deref r) then None
              else if (NS_IN6ADDRSZ <? List.length tp + 2)%nat then None
              else pton6_loop r r (tp ++ group_bytes val) colonp 0 0
            else if Ascii.eqb ch "."
                    && (List.length tp + NS_INADDRSZ <=? NS_IN6ADDRSZ)%nat then
              match inet_pton4 curtok with
              | Some quad => pton6_finish (tp ++ quad) colonp 0 val
              | None => None
              end
            else None
        end
  end.

Definition inet_pton6 (src : string) : option (list Z) :=
  if is_nul (deref src) then None
  else if Ascii.eqb (deref src) ":" then
    if negb (Ascii.eqb (deref (next src)) ":") then None
    else pton6_loop (next src) (next src) [] None 0 0
  else pton6_loop src src [] None 0 0.

Inductive pton_t :=
  | Pton_ok (dst : list Z)   (* returns 1 and fills the destination *)
  | Pton_invalid             (* returns 0 *)
  | Pton_afnosupport.        (* returns -1, errno = EAFNOSUPPORT *)

Definition inet_pton (af : Z) (src : string) : pton_t :=
  if af =? AF_INET then
    match inet_pton4 src with Some d => Pton_ok d | None => Pton_invalid end
  else if af =? AF_INET6 then
    match inet_pton6 src with Some d => Pton_ok d | None => Pton_invalid end
  else Pton_afnosupport.

End Libc.

(* ===================================================================== *)
(** * The process model                                                   *)
(* ===================================================================== *)

Module Sys.

Definition EXIT_SUCCESS : Z := 0.
Definition EXIT_FAILURE : Z := 1.
Definition STDOUT_FILENO : Z := 1.
Definition SOCK_STREAM : Z := 1.
Definition SIZE_MAX : Z := 2 ^ 64 - 1.

(** [struct sockaddr_storage], seen through the two casts the client
    applies to it.  [sin_port] and [sin6_port] are the same two bytes;
    [sin_addr] and [sin6_addr] are disjoint areas of the storage. *)
Record sockaddr_storage := {
  ss_family : Z;
  ss_port : Z;
  sin_addr : list Z;
  sin6_addr : list Z
}.

Definition SIZEOF_SOCKADDR_STORAGE : Z := 128.

(** What the process does to the outside world, in program order.  The
    text handed to the buffered standard output ([printf]) is kept apart
    from bytes written to file descriptors with [write]: the stream is
    flushed to descriptor 1 at the latest when the process ends, so the two
    may reach the terminal in another order than the program issued
    them. *)
Inductive event :=
  | Ev_stdout (text : string)                      (* printf *)
  | Ev_stderr (text : string)                      (* fprintf/fputs on stderr *)
  | Ev_perror (msg : string) (errno : Z)           (* perror with this errno *)
  | Ev_socket (domain type protocol : Z)
  | Ev_connect (sockfd : Z) (addr : sockaddr_storage) (addrlen : Z)
  | Ev_send (sockfd : Z) (buf : list Z) (len flags : Z)
  | Ev_write (fd : Z) (buf : list Z) (count : Z)
  | Ev_recv (sockfd : Z) (len flags : Z)
  | Ev_close (fd : Z).

(** How a C function ends: it returns, it ends the process with [exit], or
    its behaviour is undefined (a null pointer used as a string). *)
Inductive outcome (A : Type) :=
  | Ret (a : A)
  | Exit (status : Z)
  | Fault.

Arguments Ret {A} a.
Arguments Exit {A} status.
Arguments Fault {A}.

Definition proc (A : Type) : Type := list event * outcome A.

Definition ret {A} (a : A) : proc A := ([], Ret a).

Definition bind {A B} (m : proc A) (k : A -> proc B) : proc B :=
  match m with
  | (t, Ret a) => let (t', o) := k a in (t ++ t', o)
  | (t, Exit status) => (t, Exit status)
  | (t, Fault) => (t, Fault)
  end.

Definition emit (e : event) : proc unit := ([e], Ret tt).
Definition exit {A} (status : Z) : proc A := ([], Exit status).
Definition fault {A} : proc A := ([], Fault).

Definition trace {A} (m : proc A) : list event := fst m.
Definition result {A} (m : proc A) : outcome A := snd m.

(** The result of a system call: the value returned and the [errno] it
    leaves behind when that value is -1. *)
Record sysret := { rv : Z; errno : Z }.

Inductive recv_t :=
  | Recv_data (bytes : list Z)   (* what the peer has sent; [] once it closed *)
  | Recv_err (errno : Z).        (* recv returns -1 *)

(** The operating environment of one run.  Every call below is made at
    most once per run, so one answer per call describes it. *)
Record environment := {
  env_socket : sysret;
  env_inet_ntop : Z -> list Z -> string + Z;   (* the text, or NULL and errno *)
  env_connect : sysret;
  env_send : sysret;
  env_write : sysret;
  env_recv : recv_t;
  env_close : sysret
}.

End Sys.

Module ProcNotations.
Notation "x <- m ;; k" := (Sys.bind m (fun x => k))
  (at level 61, m at next level, right associativity).
Notation "m ;; k" := (Sys.bind m (fun _ => k))
  (at level 61, right associativity).
Notation "' pat <- m ;; k" := (Sys.bind m (fun x => match x with pat => k end))
  (at level 61, pat pattern, m at next level, right associativity).
End ProcNotations.

(* ===================================================================== *)
(** * client.c                                                            *)
(* ===================================================================== *)

Module Client.
Import Libc Sys ProcNotations.

Definition UNKNOWN_OPTION_MESSAGE_LEN : nat := 24.
Definition BASE_TEN : Z := 10.
Definition LINE_LENGTH : nat := 1024.

(** Conversions of the printf family. *)
Definition dec (z : Z) : string := NilZero.string_of_int (Z.to_int z).
Definition chr (z : Z) : ascii := ascii_of_N (Z.to_N (z mod 256)).

(** [htons] on a little-endian host: the two bytes of the port swapped. *)
Definition htons (port : Z) : Z := (port mod 256) * 256 + (port / 256) mod 256.

Definition NL : string := String "010"%char EmptyString.

(** [snprintf] into a buffer of [size] bytes keeps [size - 1] characters. *)
Definition snprintf (size : nat) (text : string) : string :=
  String.substring 0 (size - 1) text.

(** ** Error handling *)

Definition usage {A} (program_name : string) (exit_code : Z)
    (message : option string) : proc A :=
  match message with
  | Some m => emit (Ev_stderr (cstr m ++ NL))
  | None => ret tt
  end ;;
  emit (Ev_stderr ("Usage: " ++ cstr program_name
                     ++ " [-h] <ip address> <port> <command>" ++ NL)) ;;
  emit (Ev_stderr ("Options:" ++ NL)) ;;
  emit (Ev_stderr (" -h Display this help message" ++ NL)) ;;
  exit exit_code.

(** ** Argument parsing *)

(** [argv[i]]; the element after the last one is the null pointer. *)
Definition argv_at (argv : list string) (i : nat) : option string :=
  nth_error argv i.

(** Every case of the switch ends the process, so the loop calls [getopt]
    once: either that call returns -1 or the process exits. *)
Definition parse_arguments (argv0 : string) (args : list string)
  : proc (option string * option string * option string) :=
  let argc := Z.of_nat (S (List.length args)) in
  let g := getopt argv0 args "h:" in
  let opt := go_ret g in
  if negb (opt =? -1) then
    if opt =? code "h" then
      usage argv0 EXIT_SUCCESS None
    else if opt =? code "?" then
      let message :=
        snprintf UNKNOWN_OPTION_MESSAGE_LEN
          ("Unknown option '-" ++ String (chr (go_optopt g)) "'.") in
      usage argv0 EXIT_FAILURE (Some message)
    else
      usage argv0 EXIT_FAILURE None
  else if argc <? 4 then
    usage argv0 EXIT_FAILURE (Some "Error: Too few arguments.")
  else if argc >? 4 then
    usage argv0 EXIT_FAILURE (Some "Error: Too many arguments.")
  else
    let argv := go_argv g in
    let optind := go_optind g in
    ret (argv_at argv optind,
         argv_at argv (optind + 1),
         argv_at argv (optind + 2)).

Definition parse_in_port_t (binary_name port_str : string) : proc Z :=
  let r := strtoumax port_str in
  let endptr := st_endptr r in
  let parsed_value := st_value r in
  if negb (st_errno r =? 0) then
    emit (Ev_perror "Error parsing in_port_t." (st_errno r)) ;;
    exit EXIT_FAILURE
  else if negb (is_nul (deref endptr)) then
    usage binary_name EXIT_FAILURE (Some "Invalid characters in input.")
  else if parsed_value >? UINT16_MAX then
    usage binary_name EXIT_FAILURE (Some "in_port_t value out of range.")
  else
    ret (parsed_value mod 2 ^ 16).

Definition handle_arguments (binary_name : string)
    (ip_address port_str command : option string) : proc Z :=
  match ip_address with
  | None => usage binary_name EXIT_FAILURE (Some "The ip address is required.")
  | Some _ =>
      match port_str with
      | None => usage binary_name EXIT_FAILURE (Some "The port is required.")
      | Some port_text =>
          match command with
          | None =>
              usage binary_name EXIT_FAILURE (Some "The command is required.")
          | Some _ => parse_in_port_t binary_name port_text
          end
      end
  end.

(** ** Network handling *)

(** [memset(addr, 0, sizeof( *addr))] *)
Definition zeroed_storage : sockaddr_storage :=
  {| ss_family := 0; ss_port := 0;
     sin_addr := repeat 0 NS_INADDRSZ; sin6_addr := repeat 0 NS_IN6ADDRSZ |}.

Definition convert_address (address : string) : proc sockaddr_storage :=
  let addr := zeroed_storage in
  match inet_pton AF_INET address with
  | Pton_ok dst =>
      emit (Ev_stdout ("IPv4 found" ++ NL)) ;;
      ret {| ss_family := AF_INET; ss_port := ss_port addr;
             sin_addr := dst; sin6_addr := sin6_addr addr |}
  | _ =>
      match inet_pton AF_INET6 address with
      | Pton_ok dst =>
          ret {| ss_family := AF_INET6; ss_port := ss_port addr;
                 sin_addr := sin_addr addr; sin6_addr := dst |}
      | _ =>
          emit (Ev_stderr (cstr address
                             ++ " is not an IPv4 or IPv6 address" ++ NL)) ;;
          exit EXIT_FAILURE
      end
  end.

Definition socket_create (env : environment) (domain type protocol : Z)
  : proc Z :=
  emit (Ev_socket domain type protocol) ;;
  let sockfd := rv (env_socket env) in
  if sockfd =? -1 then
    emit (Ev_stderr ("Socket creation failed" ++ NL)) ;;
    exit EXIT_FAILURE
  else ret sockfd.

Definition internal_error_message (family : Z) : string :=
  "Internal error: addr->ss_family must be AF_INET or AF_INET6, was: "
    ++ dec family ++ NL.

(** The storage is updated in place in C; here the updated value is
    returned. *)
Definition socket_connect (env : environment) (sockfd : Z)
    (addr : sockaddr_storage) (port : Z) : proc sockaddr_storage :=
  match env_inet_ntop env (ss_family addr)
          (if ss_family addr =? AF_INET then sin_addr addr
           else sin6_addr addr) with
  | inr e =>
      emit (Ev_perror "inet_ntop" e) ;;
      exit EXIT_FAILURE
  | inl addr_str =>
      emit (Ev_stdout ("Connecting to " ++ cstr addr_str ++ ":" ++ dec port
                         ++ NL)) ;;
      let net_port := htons port in
      addr' <-
        (if ss_family addr =? AF_INET then
           ret {| ss_family := ss_family addr; ss_port := net_port;
                  sin_addr := sin_addr addr; sin6_addr := sin6_addr addr |}
         else if ss_family addr =? AF_INET6 then
           ret {| ss_family := ss_family addr; ss_port := net_port;
                  sin_addr := sin_addr addr; sin6_addr := sin6_addr addr |}
         else
           emit (Ev_stderr (internal_error_message (ss_family addr))) ;;
           exit EXIT_FAILURE) ;;
      emit (Ev_stdout ("Sock fd: " ++ dec sockfd ++ NL
                         ++ "Addr: " ++ dec (ss_family addr') ++ NL
                         ++ "Size: " ++ dec SIZEOF_SOCKADDR_STORAGE)) ;;
      emit (Ev_connect sockfd addr' SIZEOF_SOCKADDR_STORAGE) ;;
      if rv (env_connect env) =? -1 then
        emit (Ev_perror "connect" (errno (env_connect env))) ;;
        exit EXIT_FAILURE
      else
        emit (Ev_stdout ("Connected to: " ++ cstr addr_str ++ ":" ++ dec port
                           ++ NL)) ;;
        ret addr'
  end.

Definition socket_close (env : environment) (sockfd : Z) : proc unit :=
  emit (Ev_close sockfd) ;;
  if rv (env_close env) =? -1 then
    emit (Ev_perror "error closing socket" (errno (env_close env))) ;;
    exit EXIT_FAILURE
  else ret tt.

(** The values returned by [send] and [write] are discarded. *)
Definition write_to_socket (env : environment) (sockfd : Z)
    (command : string) : proc unit :=
  let command_len := Z.of_nat (strlen command) in
  let size := command_len mod 2 ^ 8 in
  emit (Ev_send sockfd [size] 1 0) ;;
  emit (Ev_write sockfd (bytes_of (strlen command) command) command_len).

(** [buffer] starts out indeterminate; after a successful [recv] its first
    [bytes_read] bytes are the data received.  The event of the final
    [write] carries the known bytes of the buffer and the count asked for. *)
Definition read_from_socket (env : environment) (sockfd : Z) : proc unit :=
  emit (Ev_recv sockfd (Z.of_nat LINE_LENGTH) 0) ;;
  let '(bytes_read, buffer) :=
    match env_recv env with
    | Recv_data bytes =>
        let got := firstn LINE_LENGTH bytes in
        (Z.of_nat (List.length got), got)
    | Recv_err _ => (-1, [])
    end in
  emit (Ev_stdout ("Read bytes: " ++ dec bytes_read ++ NL)) ;;
  emit (Ev_write STDOUT_FILENO buffer (bytes_read mod 2 ^ 64)) ;;
  socket_close env sockfd.

(** A pointer that is used as a string must not be null. *)
Definition string_at (p : option string) : proc string :=
  match p with
  | Some s => ret s
  | None => fault
  end.

Definition main (env : environment) (argv0 : string) (args : list string)
  : proc Z :=
  ' (ip_address, port_str, command) <- parse_arguments argv0 args ;;
  port <- handle_arguments argv0 ip_address port_str command ;;
  address <- string_at ip_address ;;
  addr <- convert_address address ;;
  sockfd <- socket_create env (ss_family addr) SOCK_STREAM 0 ;;
  addr' <- socket_connect env sockfd addr port ;;
  command_text <- string_at command ;;
  write_to_socket env sockfd command_text ;;
  read_from_socket env sockfd ;;
  ret 0.

(** The exit status of the process: the value [main] returns, or the
    argument of [exit]. *)
Definition exit_status (m : proc Z) : option Z :=
  match result m with
  | Ret v => Some v
  | Exit status => Some status
  | Fault => None
  end.

(** ** Views of a trace *)

(** The bytes handed to [send] and [write] on descriptor [fd], in order:
    what goes onto the wire of a socket. *)
Fixpoint bytes_to (fd : Z) (t : list event) : list Z :=
  match t with
  | [] => []
  | Ev_send s buf _ _ :: t' =>
      if s =? fd then buf ++ bytes_to fd t' else bytes_to fd t'
  | Ev_write s buf _ :: t' =>
      if s =? fd then buf ++ bytes_to fd t' else bytes_to fd t'
  | _ :: t' => bytes_to fd t'
  end.

(** The text given to the buffered standard output. *)
Fixpoint stdout_text (t : list event) : string :=
  match t with
  | [] => ""
  | Ev_stdout s :: t' => s ++ stdout_text t'
  | _ :: t' => stdout_text t'
  end.

Definition is_diagnostic (e : event) : bool :=
  match e with
  | Ev_stderr _ | Ev_perror _ _ => true
  | _ => false
  end.

End Client.

(* ===================================================================== *)
(** * Auxiliary notions used by the statements                            *)
(* ===================================================================== *)

Module Notions.
Import Libc Sys Client ProcNotations.

(** The value of a decimal numeral read from the left, starting from
    [acc]. *)
Fixpoint uint_value (d : Decimal.uint) (acc : Z) : Z :=
  match d with
  | Decimal.Nil => acc
  | Decimal.D0 l => uint_value l (acc * 10 + 0)
  | Decimal.D1 l => uint_value l (acc * 10 + 1)
  | Decimal.D2 l => uint_value l (acc * 10 + 2)
  | Decimal.D3 l => uint_value l (acc * 10 + 3)
  | Decimal.D4 l => uint_value l (acc * 10 + 4)
  | Decimal.D5 l => uint_value l (acc * 10 + 5)
  | Decimal.D6 l => uint_value l (acc * 10 + 6)
  | Decimal.D7 l => uint_value l (acc * 10 + 7)
  | Decimal.D8 l => uint_value l (acc * 10 + 8)
  | Decimal.D9 l => uint_value l (acc * 10 + 9)
  end.

(** [text] is a decimal numeral (one digit or more) and denotes [p]. *)
Definition denotes (text : string) (p : Z) : Prop :=
  exists d, NilZero.uint_of_string text = Some d /\ Z.of_uint d = p.

(** [text] is a possibly empty run of digits whose value is [p]. *)
Definition digit_run (text : string) (p : Z) : Prop :=
  exists d, NilEmpty.uint_of_string text = Some d /\ Z.of_uint d = p.

Definition nonempty (s : string) : bool :=
  match s with
  | EmptyString => false
  | String _ _ => true
  end.

Fixpoint all_space (s : string) : bool :=
  match s with
  | EmptyString => true
  | String c r => isspace c && all_space r
  end.

Definition is_sign (c : ascii) : bool := Ascii.eqb c "-" || Ascii.eqb c "+".

(** The three lines of the usage text. *)
Definition usage_lines (program_name : string) : list event :=
  [Ev_stderr ("Usage: " ++ cstr program_name
                ++ " [-h] <ip address> <port> <command>" ++ NL);
   Ev_stderr ("Options:" ++ NL);
   Ev_stderr (" -h Display this help message" ++ NL)].

(** [m] is a usage error: the message, then the usage text, all on the
    error stream, then [exit(EXIT_FAILURE)]. *)
Definition usage_error {A} (m : proc A) (binary_name message : string) : Prop :=
  m = (Ev_stderr (message ++ NL) :: usage_lines binary_name,
       Exit EXIT_FAILURE).

(** The payload bytes of a command: its characters, one byte each. *)
Definition payload_of (command : string) : list Z :=
  map code (list_ascii_of_string (cstr command)).

(** A command of 300 characters. *)
Definition long_command : string :=
  string_of_list_ascii (repeat "A"%char 300).

(** Whether the text of a C string contains a colon. *)
Fixpoint has_colon (s : string) : bool :=
  match s with
  | EmptyString => false
  | String c r =>
      if is_nul c then false else Ascii.eqb c ":" || has_colon r
  end.

Definition valid_ipv4 (text : string) : Prop :=
  exists dst, inet_pton AF_INET text = Pton_ok dst.

Definition valid_ipv6 (text : string) : Prop :=
  exists dst, inet_pton AF_INET6 text = Pton_ok dst.

Definition has_non_digit (text : string) : bool :=
  existsb (fun c => negb (isdigit c)) (list_ascii_of_string text).

(** The part of [main] that follows address resolution. *)
Definition session (env : environment) (addr : sockaddr_storage) (port : Z)
    (command : option string) : proc Z :=
  sockfd <- socket_create env (ss_family addr) SOCK_STREAM 0 ;;
  addr' <- socket_connect env sockfd addr port ;;
  command_text <- string_at command ;;
  write_to_socket env sockfd command_text ;;
  read_from_socket env sockfd ;;
  ret 0.

(** The data in the receive buffer and the value of [bytes_read]. *)
Definition received (env : environment) : list Z * Z :=
  match env_recv env with
  | Recv_data bytes =>
      (firstn LINE_LENGTH bytes,
       Z.of_nat (List.length (firstn LINE_LENGTH bytes)))
  | Recv_err _ => ([], -1)
  end.

(** The events of the exchange on an established connection, up to and
    including the call of [close]. *)
Definition exchange_events (env : environment) (sockfd : Z)
    (command : string) : list event :=
  [Ev_send sockfd [Z.of_nat (strlen command) mod 2 ^ 8] 1 0;
   Ev_write sockfd (payload_of command) (Z.of_nat (strlen command));
   Ev_recv sockfd (Z.of_nat LINE_LENGTH) 0;
   Ev_stdout ("Read bytes: " ++ dec (snd (received env)) ++ NL);
   Ev_write STDOUT_FILENO (fst (received env))
     (snd (received env) mod 2 ^ 64);
   Ev_close sockfd].

(** The events of a successful connection set-up. *)
Definition setup_events (sockfd : Z) (addr : sockaddr_storage) (port : Z)
    (addr_str : string) : list event :=
  [Ev_socket (ss_family addr) SOCK_STREAM 0;
   Ev_stdout ("Connecting to " ++ cstr addr_str ++ ":" ++ dec port ++ NL);
   Ev_stdout ("Sock fd: " ++ dec sockfd ++ NL
                ++ "Addr: " ++ dec (ss_family addr) ++ NL
                ++ "Size: " ++ dec SIZEOF_SOCKADDR_STORAGE);
   Ev_connect sockfd
     {| ss_family := ss_family addr; ss_port := htons port;
        sin_addr := sin_addr addr; sin6_addr := sin6_addr addr |}
     SIZEOF_SOCKADDR_STORAGE;
   Ev_stdout ("Connected to: " ++ cstr addr_str ++ ":" ++ dec port ++ NL)].

(** The arguments are three operands, the port text is accepted as [port],
    the address resolves to [addr] (printing [tc]), and the environment
    lets the client create its socket, render the address as [addr_str]
    and connect. *)
Definition established (env : environment) (argv0 ip ptext cmd : string)
    (port : Z) (tc : list event) (addr : sockaddr_storage)
    (addr_str : string) : Prop :=
  nonoption ip = true /\ nonoption ptext = true /\ nonoption cmd = true
  /\ parse_in_port_t argv0 ptext = ([], Ret port)
  /\ convert_address ip = (tc, Ret addr)
  /\ rv (env_socket env) <> -1
  /\ env_inet_ntop env (ss_family addr)
       (if ss_family addr =? AF_INET then sin_addr addr else sin6_addr addr)
     = inl addr_str
  /\ rv (env_connect env) <> -1.

Definition is_close_event (e : event) : bool :=
  match e with
  | Ev_close _ => true
  | _ => false
  end.

(** Sample environments.  [sample_ntop] renders a dotted quad and stands
    in for the text of any IPv6 address. *)
Definition sample_ntop (af : Z) (a : list Z) : string + Z :=
  if af =? AF_INET then inl (String.concat "." (map dec a))
  else inl "::1".

Definition ECONNRESET : Z := 104.
Definition ECONNREFUSED : Z := 111.

(** Everything succeeds and the peer sends [reply]. *)
Definition env_reply (reply : list Z) : environment :=
  {| env_socket := {| rv := 3; errno := 0 |};
     env_inet_ntop := sample_ntop;
     env_connect := {| rv := 0; errno := 0 |};
     env_send := {| rv := 1; errno := 0 |};
     env_write := {| rv := 4; errno := 0 |};
     env_recv := Recv_data reply;
     env_close := {| rv := 0; errno := 0 |} |}.

(** The peer accepts the connection and closes it without sending. *)
Definition env_peer_closed : environment := env_reply [].

(** The connection is established; then [send], [write] and [recv] all
    report an error. *)
Definition env_io_fails (send_errno write_errno recv_errno : Z)
  : environment :=
  {| env_socket := {| rv := 3; errno := 0 |};
     env_inet_ntop := sample_ntop;
     env_connect := {| rv := 0; errno := 0 |};
     env_send := {| rv := -1; errno := send_errno |};
     env_write := {| rv := -1; errno := write_errno |};
     env_recv := Recv_err recv_errno;
     env_close := {| rv := 0; errno := 0 |} |}.

(** Only the receive fails: the peer resets the connection. *)
Definition env_recv_reset : environment :=
  {| env_socket := {| rv := 3; errno := 0 |};
     env_inet_ntop := sample_ntop;
     env_connect := {| rv := 0; errno := 0 |};
     env_send := {| rv := 1; errno := 0 |};
     env_write := {| rv := 4; errno := 0 |};
     env_recv := Recv_err ECONNRESET;
     env_close := {| rv := 0; errno := 0 |} |}.

(** The socket is created and the peer refuses the connection. *)
Definition env_refused : environment :=
  {| env_socket := {| rv := 3; errno := 0 |};
     env_inet_ntop := sample_ntop;
     env_connect := {| rv := -1; errno := ECONNREFUSED |};
     env_send := {| rv := 1; errno := 0 |};
     env_write := {| rv := 4; errno := 0 |};
     env_recv := Recv_data [];
     env_close := {| rv := 0; errno := 0 |} |}.

End Notions.

(* ===================================================================== *)
(** * Further notions: option scan, stages and calls of a run             *)
(* ===================================================================== *)

Module Coverage.
Import Libc Sys Client Notions.

(** Whether the first call of [getopt] finds no option: every element is
    an operand, or the first element that is none is "--". *)
Definition no_options (args : list string) : bool :=
  match snd (skip_nonoptions args) with
  | [] => true
  | elt :: _ => strcmp_eq elt "--"
  end.

(** The arguments are three operands, the port text is accepted as [port]
    and the address resolves to [addr], printing [tc]. *)
Definition resolved (argv0 ip ptext cmd : string) (port : Z)
    (tc : list event) (addr : sockaddr_storage) : Prop :=
  nonoption ip = true /\ nonoption ptext = true /\ nonoption cmd = true
  /\ parse_in_port_t argv0 ptext = ([], Ret port)
  /\ convert_address ip = (tc, Ret addr).

(** The calls a run makes on descriptors, as opposed to the text it hands
    to the standard streams. *)
Definition is_syscall (e : event) : bool :=
  match e with
  | Ev_stdout _ | Ev_stderr _ | Ev_perror _ _ => false
  | _ => true
  end.

Definition syscalls (t : list event) : list event := filter is_syscall t.


End Coverage.

(* ===================================================================== *)
(** * Facts about the library models                                      *)
(* ===================================================================== *)

Module LibcFacts.
Import Libc Notions.

Lemma uint_value_pos (d : Decimal.uint) : forall acc : positive,
  uint_value d (Zpos acc) = Zpos (Pos.of_uint_acc d acc).
Proof.
  induction d; intros acc; cbn [uint_value Pos.of_uint_acc]; trivial;
    match goal with
    | |- uint_value _ ?z = _ =>
        match goal with
        | |- _ = Zpos (Pos.of_uint_acc _ ?q) =>
            replace z with (Zpos q) by lia; apply IHd
        end
    end.
Qed.

Lemma uint_value_zero (d : Decimal.uint) : uint_value d 0 = Z.of_uint d.
Proof.
  unfold Z.of_uint.
  induction d; simpl; trivial; apply (uint_value_pos d).
Qed.

(** A character that [uint_of_char] accepts is a digit with that value. *)
Lemma uint_of_char_digit (c : ascii) (d d' : Decimal.uint) :
  uint_of_char c (Some d) = Some d' ->
  isdigit c = true /\
  forall acc, uint_value d' acc = uint_value d (acc * 10 + digit_value c).
Proof.
  intros H. apply uint_of_char_spec in H.
  repeat (destruct H as [[-> ->] | H]; [split; [reflexivity | intros; reflexivity] | ]).
  destruct H as [-> ->]. split; [reflexivity | intros; reflexivity].
Qed.

Lemma scan_digits_run (s : string) : forall d tail acc any,
  NilEmpty.uint_of_string s = Some d ->
  isdigit (deref tail) = false ->
  scan_digits acc any (s ++ tail)
  = (uint_value d acc, any || nonempty s, tail).
Proof.
  induction s as [| c s IH]; intros d tail acc any Hs Htail.
  - injection Hs as <-. simpl. rewrite orb_false_r.
    destruct tail as [| c r]; simpl; trivial.
    simpl in Htail. now rewrite Htail.
  - simpl in Hs.
    destruct (NilEmpty.uint_of_string s) as [d0 |] eqn:E; [| discriminate].
    apply uint_of_char_digit in Hs. destruct Hs as [Hc Hv].
    simpl. rewrite Hc. rewrite (IH d0 tail _ true eq_refl Htail).
    rewrite Hv, orb_true_r. reflexivity.
Qed.

Lemma digit_plain (c : ascii) :
  isdigit c = true ->
  isspace c = false /\ is_sign c = false /\ is_nul c = false.
Proof.
  destruct c as [[] [] [] [] [] [] [] []]; intros H;
    try discriminate H; repeat split; reflexivity.
Qed.

Lemma append_empty_r (s : string) : (s ++ "")%string = s.
Proof. induction s; simpl; congruence. Qed.

Lemma of_uint_nonneg (d : Decimal.uint) : 0 <= Z.of_uint d.
Proof. unfold Z.of_uint. apply N2Z.is_nonneg. Qed.

Lemma skip_space_plain (s : string) :
  isspace (deref s) = false -> skip_space s = s.
Proof. destruct s as [| c r]; simpl; trivial. now intros ->. Qed.

Lemma skip_space_app (ws rest : string) :
  all_space ws = true -> skip_space (ws ++ rest) = skip_space rest.
Proof.
  induction ws as [| c ws IH]; simpl; trivial.
  intros H. apply andb_prop in H. destruct H as [-> H]. auto.
Qed.

Lemma take_sign_plain (s : string) :
  is_sign (deref s) = false -> take_sign s = (false, s).
Proof.
  destruct s as [| c r]; simpl; trivial. unfold is_sign.
  intros H. apply orb_false_elim in H. destruct H as [-> ->]. reflexivity.
Qed.

(** What [strtoumax] sees in a text made of a digit run followed by
    something that is no digit, once white space and sign are out of the
    way. *)
Lemma strtoumax_run (nptr digits tail : string) (d : Decimal.uint) (neg : bool) :
  take_sign (skip_space nptr) = (neg, (digits ++ tail)%string) ->
  NilEmpty.uint_of_string digits = Some d ->
  isdigit (deref tail) = false ->
  strtoumax nptr =
    if negb (nonempty digits) then
      {| st_value := 0; st_endptr := nptr; st_errno := 0 |}
    else if Z.of_uint d >? UINTMAX_MAX then
      {| st_value := UINTMAX_MAX; st_endptr := tail; st_errno := ERANGE |}
    else
      {| st_value := if neg then (2 ^ 64 - Z.of_uint d) mod 2 ^ 64
                     else Z.of_uint d;
         st_endptr := tail; st_errno := 0 |}.
Proof.
  intros Hsign Hd Htail. unfold strtoumax. rewrite Hsign.
  rewrite (scan_digits_run digits d tail 0 false Hd Htail).
  rewrite uint_value_zero. reflexivity.
Qed.

(** A text that begins with a digit has neither white space nor sign. *)
Lemma plain_front (c : ascii) (r : string) :
  isdigit c = true ->
  take_sign (skip_space (String c r)) = (false, String c r).
Proof.
  intros H. destruct (digit_plain c H) as (Hs & Hg & _).
  rewrite skip_space_plain by exact Hs. now apply take_sign_plain.
Qed.

Lemma numeral_front (text : string) (d : Decimal.uint) :
  NilZero.uint_of_string text = Some d ->
  nonempty text = true /\ isdigit (deref text) = true /\
  NilEmpty.uint_of_string text = Some d.
Proof.
  destruct text as [| c r]; [discriminate |]. simpl. intros H.
  repeat split; trivial.
  destruct (NilEmpty.uint_of_string r) as [d0 |]; [| discriminate].
  now apply uint_of_char_digit in H.
Qed.

(** [strtoumax] on a decimal numeral. *)
Lemma strtoumax_numeral (text : string) (d : Decimal.uint) :
  NilZero.uint_of_string text = Some d ->
  strtoumax text =
    if Z.of_uint d >? UINTMAX_MAX then
      {| st_value := UINTMAX_MAX; st_endptr := ""; st_errno := ERANGE |}
    else
      {| st_value := Z.of_uint d; st_endptr := ""; st_errno := 0 |}.
Proof.
  intros H. destruct (numeral_front text d H) as (Hne & Hc & Hd).
  destruct text as [| c r]; [discriminate |].
  rewrite (strtoumax_run (String c r) (String c r) "" d false); trivial.
  - now rewrite append_empty_r, plain_front.
Qed.

End LibcFacts.


(* ===================================================================== *)
(** * The models on concrete inputs                                       *)
(* ===================================================================== *)

Module ModelChecks.
Import Libc Sys Client Notions.

Example strtoumax_plain :
  strtoumax "9000" = {| st_value := 9000; st_endptr := ""; st_errno := 0 |}.
Proof. reflexivity. Qed.

Example strtoumax_leftover :
  strtoumax "80x" = {| st_value := 80; st_endptr := "x"; st_errno := 0 |}.
Proof. reflexivity. Qed.

Example strtoumax_no_digits :
  strtoumax " +" = {| st_value := 0; st_endptr := " +"; st_errno := 0 |}.
Proof. reflexivity. Qed.

Example strtoumax_minus_one :
  strtoumax "-1"
  = {| st_value := UINTMAX_MAX; st_endptr := ""; st_errno := 0 |}.
Proof. reflexivity. Qed.

Example strtoumax_overflow :
  strtoumax "18446744073709551616"
  = {| st_value := UINTMAX_MAX; st_endptr := ""; st_errno := ERANGE |}.
Proof. reflexivity. Qed.

Example inet_pton4_loopback : inet_pton4 "127.0.0.1" = Some [127; 0; 0; 1].
Proof. reflexivity. Qed.

Example inet_pton4_rejects :
  inet_pton4 "1.2.3" = None /\ inet_pton4 "1.2.3.4." = None
  /\ inet_pton4 "256.0.0.1" = None /\ inet_pton4 "01.2.3.4" = None
  /\ inet_pton4 "localhost" = None.
Proof. repeat split. Qed.

Example inet_pton6_loopback :
  inet_pton6 "::1" = Some [0; 0; 0; 0; 0; 0; 0; 0; 0; 0; 0; 0; 0; 0; 0; 1].
Proof. reflexivity. Qed.

Example inet_pton6_mapped :
  inet_pton6 "::ffff:1.2.3.4"
  = Some [0; 0; 0; 0; 0; 0; 0; 0; 0; 0; 255; 255; 1; 2; 3; 4].
Proof. reflexivity. Qed.

Example inet_pton6_full :
  inet_pton6 "fe80:0:0:0:0:0:1:2"
  = Some [254; 128; 0; 0; 0; 0; 0; 0; 0; 0; 0; 0; 0; 1; 0; 2].
Proof. reflexivity. Qed.

Example inet_pton6_rejects :
  inet_pton6 "1.2.3.4" = None /\ inet_pton6 "1:2" = None
  /\ inet_pton6 "1::2::3" = None /\ inet_pton6 ":1" = None
  /\ inet_pton6 "1:2:3:4:5:6:7:8:9" = None /\ inet_pton6 "12345::" = None.
Proof. repeat split. Qed.

Example getopt_lone_h :
  getopt "client" ["-h"] "h:"
  = {| go_ret := code "?"; go_optopt := code "h"; go_optarg := None;
       go_optind := 2; go_argv := ["client"; "-h"] |}.
Proof. reflexivity. Qed.

Example getopt_h_with_argument :
  getopt "client" ["-h"; "x"] "h:"
  = {| go_ret := code "h"; go_optopt := code "?"; go_optarg := Some "x";
       go_optind := 3; go_argv := ["client"; "-h"; "x"] |}.
Proof. reflexivity. Qed.

Example getopt_operands_only :
  getopt "client" ["127.0.0.1"; "9000"; "PING"] "h:"
  = {| go_ret := -1; go_optopt := code "?"; go_optarg := None;
       go_optind := 1; go_argv := ["client"; "127.0.0.1"; "9000"; "PING"] |}.
Proof. reflexivity. Qed.

Example getopt_double_dash :
  getopt "client" ["a"; "--"; "b"] "h:"
  = {| go_ret := -1; go_optopt := code "?"; go_optarg := None;
       go_optind := 2; go_argv := ["client"; "--"; "a"; "b"] |}.
Proof. reflexivity. Qed.

(** A peer that answers PONG to PING. *)
Example run_ping_pong :
  main (env_reply [80; 79; 78; 71]) "client" ["127.0.0.1"; "9000"; "PING"]
  = ([Ev_stdout ("IPv4 found" ++ NL);
      Ev_socket AF_INET SOCK_STREAM 0;
      Ev_stdout ("Connecting to 127.0.0.1:9000" ++ NL);
      Ev_stdout ("Sock fd: 3" ++ NL ++ "Addr: 2" ++ NL ++ "Size: 128");
      Ev_connect 3
        {| ss_family := AF_INET; ss_port := htons 9000;
           sin_addr := [127; 0; 0; 1];
           sin6_addr := repeat 0 NS_IN6ADDRSZ |}
        SIZEOF_SOCKADDR_STORAGE;
      Ev_stdout ("Connected to: 127.0.0.1:9000" ++ NL);
      Ev_send 3 [4] 1 0;
      Ev_write 3 [80; 73; 78; 71] 4;
      Ev_recv 3 1024 0;
      Ev_stdout ("Read bytes: 4" ++ NL);
      Ev_write STDOUT_FILENO [80; 79; 78; 71] 4;
      Ev_close 3],
     Ret 0).
Proof. reflexivity. Qed.

(** An IPv6 listener: the family is [AF_INET6] and nothing announces it. *)
Example run_ipv6_family :
  In (Ev_socket AF_INET6 SOCK_STREAM 0)
     (trace (main (env_reply [79; 75]) "client" ["::1"; "9000"; "STATUS"]))
  /\ exit_status (main (env_reply [79; 75]) "client" ["::1"; "9000"; "STATUS"])
     = Some 0.
Proof. split; [cbn; auto | reflexivity]. Qed.

(** A text that is no address: no socket is ever created. *)
Example run_not_an_ip :
  main (env_reply []) "client" ["not-an-ip"; "9000"; "PING"]
  = ([Ev_stderr ("not-an-ip is not an IPv4 or IPv6 address" ++ NL)],
     Exit EXIT_FAILURE).
Proof. reflexivity. Qed.

(** A port out of range: a usage error before any network activity. *)
Example run_port_70000 :
  usage_error (main (env_reply []) "client" ["127.0.0.1"; "70000"; "PING"])
    "client" "in_port_t value out of range.".
Proof. reflexivity. Qed.

Example run_too_few :
  usage_error (main (env_reply []) "client" ["127.0.0.1"; "9000"])
    "client" "Error: Too few arguments.".
Proof. reflexivity. Qed.

Example run_too_many :
  usage_error (main (env_reply []) "client" ["127.0.0.1"; "9000"; "A"; "B"])
    "client" "Error: Too many arguments.".
Proof. reflexivity. Qed.

Example run_unknown_option :
  usage_error (main (env_reply []) "client" ["-x"; "127.0.0.1"; "9000"])
    "client" "Unknown option '-x'.".
Proof. reflexivity. Qed.

End ModelChecks.

(* ===================================================================== *)
(** * Port validation                                                     *)
(* ===================================================================== *)

Module PortFacts.
Import Libc Sys Client Notions LibcFacts.

Lemma parse_in_port_t_unfold (binary_name text : string) :
  parse_in_port_t binary_name text =
    let r := strtoumax text in
    if negb (st_errno r =? 0) then
      ([Ev_perror "Error parsing in_port_t." (st_errno r)], Exit EXIT_FAILURE)
    else if negb (is_nul (deref (st_endptr r))) then
      usage binary_name EXIT_FAILURE (Some "Invalid characters in input.")
    else if st_value r >? UINT16_MAX then
      usage binary_name EXIT_FAILURE (Some "in_port_t value out of range.")
    else ([], Ret (st_value r mod 2 ^ 16)).
Proof.
  unfold parse_in_port_t. cbv zeta.
  destruct (negb (st_errno (strtoumax text) =? 0)); reflexivity.
Qed.

Lemma usage_is_usage_error {A} (binary_name msg : string) :
  cstr msg = msg ->
  usage_error (@usage A binary_name EXIT_FAILURE (Some msg)) binary_name msg.
Proof. intros H. unfold usage_error, usage_lines, usage. rewrite H. reflexivity. Qed.

Lemma parse_numeral (binary_name text : string) (d : Decimal.uint) :
  NilZero.uint_of_string text = Some d ->
  parse_in_port_t binary_name text =
    if Z.of_uint d >? UINTMAX_MAX then
      ([Ev_perror "Error parsing in_port_t." ERANGE], Exit EXIT_FAILURE)
    else if Z.of_uint d >? UINT16_MAX then
      usage binary_name EXIT_FAILURE (Some "in_port_t value out of range.")
    else ([], Ret (Z.of_uint d)).
Proof.
  intros H. rewrite parse_in_port_t_unfold, (strtoumax_numeral text d H).
  cbv zeta.
  destruct (Z.of_uint d >? UINTMAX_MAX) eqn:E1;
    cbn [st_errno st_value st_endptr].
  - reflexivity.
  - change (negb (0 =? 0)) with false. cbv iota.
    change (negb (is_nul (deref ""))) with false. cbv iota.
    destruct (Z.of_uint d >? UINT16_MAX) eqn:E2; trivial.
    pose proof (of_uint_nonneg d). unfold UINT16_MAX in E2.
    rewrite Z.mod_small by lia. reflexivity.
Qed.

(** A digit run followed by a character that is no digit: the conversion
    stops in front of that character. *)
Lemma parse_leftover (binary_name digits rest : string) (c : ascii)
    (d : Decimal.uint) :
  NilEmpty.uint_of_string digits = Some d ->
  Z.of_uint d <= UINTMAX_MAX ->
  isdigit c = false -> is_nul c = false ->
  (digits = "" -> isspace c = false /\ is_sign c = false) ->
  parse_in_port_t binary_name (digits ++ String c rest)
  = usage binary_name EXIT_FAILURE (Some "Invalid characters in input.").
Proof.
  intros Hd Hmax Hc Hnul Hfront.
  assert (Hsign : take_sign (skip_space (digits ++ String c rest))
                  = (false, (digits ++ String c rest)%string)).
  { destruct digits as [| c0 r0].
    - destruct (Hfront eq_refl) as [Hs Hg]. simpl append.
      rewrite skip_space_plain by exact Hs. now apply take_sign_plain.
    - simpl append. apply plain_front.
      simpl in Hd. destruct (NilEmpty.uint_of_string r0); [| discriminate].
      now apply uint_of_char_digit in Hd. }
  rewrite parse_in_port_t_unfold.
  rewrite (strtoumax_run _ digits (String c rest) d false Hsign Hd Hc).
  cbv zeta. destruct digits as [| c0 r0].
  - cbn [nonempty negb st_errno st_endptr append deref].
    change (negb (0 =? 0)) with false. cbv iota. now rewrite Hnul.
  - cbn [nonempty negb].
    destruct (Z.gtb_spec (Z.of_uint d) UINTMAX_MAX) as [Hbig | _];
      [lia |].
    cbn [st_errno st_endptr deref].
    change (negb (0 =? 0)) with false. cbv iota. now rewrite Hnul.
Qed.

(** C7 (as amended).  A decimal numeral denoting [p] is accepted with
    result [p] when [p <= 65535]; it is refused with the usage error
    "in_port_t value out of range." when [65535 < p <= UINTMAX_MAX], and
    with the system diagnostic of "Error parsing in_port_t." (errno
    [ERANGE]) when [p] does not fit [uintmax_t].  A digit run that fits
    [uintmax_t] followed by a character that is neither a digit nor NUL
    (and, the run being empty, neither white space nor a sign) is refused
    with the usage error "Invalid characters in input.".  Every refusal
    exits with [EXIT_FAILURE], which is not zero. *)
Theorem parse_in_port_t_numerals (binary_name : string) :
  (forall text p, denotes text p -> p <= UINT16_MAX ->
     parse_in_port_t binary_name text = ([], Ret p))
  /\ (forall text p, denotes text p -> UINT16_MAX < p <= UINTMAX_MAX ->
        usage_error (parse_in_port_t binary_name text) binary_name
          "in_port_t value out of range.")
  /\ (forall text p, denotes text p -> UINTMAX_MAX < p ->
        parse_in_port_t binary_name text =
          ([Ev_perror "Error parsing in_port_t." ERANGE], Exit EXIT_FAILURE))
  /\ (forall digits c rest v, digit_run digits v -> v <= UINTMAX_MAX ->
        isdigit c = false -> is_nul c = false ->
        (digits = "" -> isspace c = false /\ is_sign c = false) ->
        usage_error (parse_in_port_t binary_name (digits ++ String c rest))
          binary_name "Invalid characters in input.")
  /\ EXIT_FAILURE <> 0.
Proof.
  split; [| split; [| split; [| split]]].
  - intros text p (d & Hd & <-) Hp. rewrite (parse_numeral _ _ _ Hd).
    unfold UINTMAX_MAX, UINT16_MAX in *.
    destruct (Z.gtb_spec (Z.of_uint d) (2 ^ 64 - 1)); [lia |].
    destruct (Z.gtb_spec (Z.of_uint d) 65535); [lia | reflexivity].
  - intros text p (d & Hd & <-) Hp. rewrite (parse_numeral _ _ _ Hd).
    unfold UINTMAX_MAX, UINT16_MAX in *.
    destruct (Z.gtb_spec (Z.of_uint d) (2 ^ 64 - 1)); [lia |].
    destruct (Z.gtb_spec (Z.of_uint d) 65535); [| lia].
    now apply usage_is_usage_error.
  - intros text p (d & Hd & <-) Hp. rewrite (parse_numeral _ _ _ Hd).
    unfold UINTMAX_MAX in *.
    destruct (Z.gtb_spec (Z.of_uint d) (2 ^ 64 - 1)); [reflexivity | lia].
  - intros digits c rest v (d & Hd & <-) Hv Hc Hnul Hfront.
    rewrite (parse_leftover _ _ _ _ _ Hd Hv Hc Hnul Hfront).
    now apply usage_is_usage_error.
  - discriminate.
Qed.

Lemma parse_in_port_t_numerals_witness :
  parse_in_port_t "client" "9000" = ([], Ret 9000)
  /\ usage_error (parse_in_port_t "client" "70000") "client"
        "in_port_t value out of range."
  /\ parse_in_port_t "client" "18446744073709551616" =
        ([Ev_perror "Error parsing in_port_t." ERANGE], Exit EXIT_FAILURE)
  /\ usage_error (parse_in_port_t "client" "80x") "client"
        "Invalid characters in input.".
Proof.
  destruct (parse_in_port_t_numerals "client") as (H1 & H2 & H3 & H4 & _).
  split; [| split; [| split]].
  - apply (H1 "9000" 9000);
      [eexists; split; reflexivity | vm_compute; discriminate].
  - apply (H2 "70000" 70000); [eexists; split; reflexivity |].
    split; [reflexivity | vm_compute; discriminate].
  - apply (H3 "18446744073709551616" (2 ^ 64));
      [eexists; split; reflexivity | reflexivity].
  - apply (H4 "80" "x"%char "" 80); try reflexivity.
    + eexists; split; reflexivity.
    + vm_compute; discriminate.
    + discriminate.
Defined.

(** C7, as stated, fails at these inputs: "+80" contains a character that
    is not a digit and is accepted; "-1" contains one and is refused as out
    of range, not for its characters; the numeral of 2^64 denotes a value
    above 65535 and is refused through [perror], not through the usage
    error; the empty text, which is no numeral, is accepted. *)
Lemma parse_in_port_t_not_exact :
  (has_non_digit "+80" = true
   /\ parse_in_port_t "client" "+80" = ([], Ret 80))
  /\ (has_non_digit "-1" = true
      /\ usage_error (parse_in_port_t "client" "-1") "client"
            "in_port_t value out of range."
      /\ ~ usage_error (parse_in_port_t "client" "-1") "client"
              "Invalid characters in input.")
  /\ (denotes "18446744073709551616" (2 ^ 64)
      /\ ~ usage_error (parse_in_port_t "client" "18446744073709551616")
              "client" "in_port_t value out of range.")
  /\ (NilZero.uint_of_string "" = None
      /\ parse_in_port_t "client" "" = ([], Ret 0)).
Proof.
  repeat split; try reflexivity.
  - discriminate.
  - eexists; split; reflexivity.
  - discriminate.
Qed.

(** C10.  The port text is judged by what [strtoumax] leaves unconsumed:
    once the conversion reports no error and stops at the end of the text,
    a value of at most 65535 is returned as the port.  So the empty text
    yields port 0, and a decimal numeral preceded by white space, by a '+',
    or by both, yields the value it denotes. *)
Theorem parse_in_port_t_lenient (binary_name : string) :
  parse_in_port_t binary_name "" = ([], Ret 0)
  /\ parse_in_port_t binary_name "+80" = ([], Ret 80)
  /\ parse_in_port_t binary_name " 80" = ([], Ret 80)
  /\ (forall ws digits p,
        all_space ws = true -> denotes digits p -> p <= UINT16_MAX ->
        parse_in_port_t binary_name (ws ++ digits) = ([], Ret p)
        /\ parse_in_port_t binary_name (ws ++ "+" ++ digits) = ([], Ret p))
  /\ (forall text,
        st_errno (strtoumax text) = 0 ->
        is_nul (deref (st_endptr (strtoumax text))) = true ->
        st_value (strtoumax text) <= UINT16_MAX ->
        parse_in_port_t binary_name text
        = ([], Ret (st_value (strtoumax text) mod 2 ^ 16))).
Proof.
  assert (Hgen : forall text,
        st_errno (strtoumax text) = 0 ->
        is_nul (deref (st_endptr (strtoumax text))) = true ->
        st_value (strtoumax text) <= UINT16_MAX ->
        parse_in_port_t binary_name text
        = ([], Ret (st_value (strtoumax text) mod 2 ^ 16))).
  { intros text He Hn Hv. rewrite parse_in_port_t_unfold. cbv zeta.
    rewrite He, Hn. cbn [negb Z.eqb].
    destruct (Z.gtb_spec (st_value (strtoumax text)) UINT16_MAX);
      [lia | reflexivity]. }
  assert (Hrun : forall ws sign digits d,
        all_space ws = true -> sign = "" \/ sign = "+" ->
        NilZero.uint_of_string digits = Some d ->
        Z.of_uint d <= UINT16_MAX ->
        parse_in_port_t binary_name (ws ++ sign ++ digits)
        = ([], Ret (Z.of_uint d))).
  { intros ws sign digits d Hws Hsg Hd Hp.
    destruct (numeral_front digits d Hd) as (Hne & Hc & Hd').
    assert (Hfront : take_sign (skip_space (ws ++ sign ++ digits))
                     = (false, (digits ++ "")%string)).
    { rewrite skip_space_app by exact Hws. rewrite append_empty_r.
      destruct digits as [| c r]; [discriminate |].
      destruct Hsg as [-> | ->].
      - apply plain_front. exact Hc.
      - destruct (digit_plain c Hc) as (Hs & Hg & _).
        cbn [append skip_space]. change (isspace "+") with false.
        cbv iota. reflexivity. }
    pose proof (strtoumax_run _ digits "" d false Hfront Hd' eq_refl) as E.
    rewrite Hne in E. cbn [negb] in E.
    pose proof (of_uint_nonneg d) as Hnn.
    unfold UINTMAX_MAX, UINT16_MAX in *.
    destruct (Z.gtb_spec (Z.of_uint d) (2 ^ 64 - 1)) as [Hbig |]; [lia |].
    rewrite Hgen; rewrite E; cbn [st_errno st_value st_endptr]; trivial.
    now rewrite Z.mod_small by lia. }
  split; [reflexivity |]. split; [reflexivity |]. split; [reflexivity |].
  split; [| exact Hgen].
  intros ws digits p Hws (d & Hd & <-) Hp. split.
  - apply (Hrun ws "" digits d); auto.
  - apply (Hrun ws "+" digits d); auto.
Qed.

Lemma parse_in_port_t_lenient_witness :
  parse_in_port_t "client" (" " ++ "443") = ([], Ret 443)
  /\ parse_in_port_t "client" (" " ++ "+" ++ "443") = ([], Ret 443)
  /\ parse_in_port_t "client" "+80"
     = ([], Ret (st_value (strtoumax "+80") mod 2 ^ 16)).
Proof.
  destruct (parse_in_port_t_lenient "client") as (_ & _ & _ & H4 & H5).
  split; [| split].
  - apply (H4 " " "443" 443);
      [reflexivity | eexists; split; reflexivity | vm_compute; discriminate].
  - apply (H4 " " "443" 443);
      [reflexivity | eexists; split; reflexivity | vm_compute; discriminate].
  - apply (H5 "+80"); [reflexivity | reflexivity | vm_compute; discriminate].
Defined.

End PortFacts.

(* ===================================================================== *)
(** * Framing of the command                                              *)
(* ===================================================================== *)

Module FrameFacts.
Import Libc Sys Client Notions.

Lemma bytes_of_strlen (s : string) :
  bytes_of (strlen s) s = payload_of s.
Proof.
  unfold payload_of. induction s as [| c r IH]; simpl; trivial.
  destruct (is_nul c); simpl; [reflexivity | now rewrite IH].
Qed.

Lemma payload_length (s : string) :
  List.length (payload_of s) = strlen s.
Proof.
  unfold payload_of. rewrite length_map.
  induction s as [| c r IH]; simpl; trivial.
  destruct (is_nul c); simpl; [reflexivity | now rewrite IH].
Qed.

Lemma write_to_socket_events (env : environment) (sockfd : Z)
    (command : string) :
  write_to_socket env sockfd command =
    ([Ev_send sockfd [Z.of_nat (strlen command) mod 2 ^ 8] 1 0;
      Ev_write sockfd (payload_of command) (Z.of_nat (strlen command))],
     Ret tt).
Proof.
  unfold write_to_socket. rewrite bytes_of_strlen. reflexivity.
Qed.

Lemma bytes_to_frame (sockfd size len : Z) (payload : list Z) :
  bytes_to sockfd [Ev_send sockfd [size] 1 0; Ev_write sockfd payload len]
  = size :: payload.
Proof.
  cbn [bytes_to]. rewrite Z.eqb_refl. cbn [app].
  now rewrite app_nil_r.
Qed.

(** C1.  For a command of length [L <= 255] the send operation makes two
    transmissions on the socket, a single byte equal to [L] and then the
    [L] characters of the command unchanged: [1 + L] bytes in all, and
    just the byte 0 when the command is empty. *)
Theorem write_to_socket_frame (env : environment) (sockfd : Z)
    (command : string) :
  (strlen command <= 255)%nat ->
  let L := Z.of_nat (strlen command) in
  let wire := bytes_to sockfd (trace (write_to_socket env sockfd command)) in
  write_to_socket env sockfd command
    = ([Ev_send sockfd [L] 1 0; Ev_write sockfd (payload_of command) L],
       Ret tt)
  /\ wire = L :: payload_of command
  /\ Z.of_nat (List.length wire) = 1 + L
  /\ List.length (payload_of command) = strlen command
  /\ (strlen command = 0%nat -> wire = [0]).
Proof.
  intros Hlen L wire.
  assert (Hsize : L mod 2 ^ 8 = L).
  { apply Z.mod_small. unfold L. change (2 ^ 8) with 256. lia. }
  assert (Hwire : wire = L :: payload_of command).
  { unfold wire. rewrite write_to_socket_events. fold L. rewrite Hsize.
    apply bytes_to_frame. }
  split; [| split; [| split; [| split]]].
  - rewrite write_to_socket_events. fold L. now rewrite Hsize.
  - exact Hwire.
  - rewrite Hwire. cbn [List.length]. rewrite payload_length. unfold L. lia.
  - apply payload_length.
  - intros H0. rewrite Hwire. unfold L.
    pose proof (payload_length command) as Hp. rewrite H0 in Hp.
    destruct (payload_of command); [now rewrite H0 | discriminate].
Qed.

Lemma write_to_socket_frame_witness :
  bytes_to 3 (trace (write_to_socket
                       {| env_socket := {| rv := 3; errno := 0 |};
                          env_inet_ntop := fun _ _ => inl "127.0.0.1";
                          env_connect := {| rv := 0; errno := 0 |};
                          env_send := {| rv := 1; errno := 0 |};
                          env_write := {| rv := 4; errno := 0 |};
                          env_recv := Recv_data [];
                          env_close := {| rv := 0; errno := 0 |} |}
                       3 "PING"))
  = [4; 80; 73; 78; 71].
Proof.
  refine (proj1 (proj2 (write_to_socket_frame _ 3 "PING" _))).
  change (4 <= 255)%nat. lia.
Defined.

(** C2.  A command longer than 255 characters is not refused: the call
    returns normally, the length byte is [L mod 256] (which differs from
    [L]), and all [L] characters are still written. *)
Theorem write_to_socket_truncates (env : environment) (sockfd : Z)
    (command : string) :
  (255 < strlen command)%nat ->
  let L := Z.of_nat (strlen command) in
  write_to_socket env sockfd command
    = ([Ev_send sockfd [L mod 256] 1 0;
        Ev_write sockfd (payload_of command) L],
       Ret tt)
  /\ List.length (payload_of command) = strlen command
  /\ 0 <= L mod 256 < 256
  /\ L mod 256 <> L.
Proof.
  intros Hlen L. split; [| split; [| split]].
  - apply write_to_socket_events.
  - apply payload_length.
  - apply Z.mod_pos_bound. lia.
  - pose proof (Z.mod_pos_bound L 256 ltac:(lia)). unfold L in *. lia.
Qed.

Lemma write_to_socket_truncates_witness :
  write_to_socket
    {| env_socket := {| rv := 3; errno := 0 |};
       env_inet_ntop := fun _ _ => inl "127.0.0.1";
       env_connect := {| rv := 0; errno := 0 |};
       env_send := {| rv := 1; errno := 0 |};
       env_write := {| rv := 300; errno := 0 |};
       env_recv := Recv_data [];
       env_close := {| rv := 0; errno := 0 |} |}
    3 long_command
  = ([Ev_send 3 [Z.of_nat (strlen long_command) mod 256] 1 0;
      Ev_write 3 (payload_of long_command) (Z.of_nat (strlen long_command))],
     Ret tt).
Proof.
  refine (proj1 (write_to_socket_truncates _ 3 long_command _)).
  change (255 < 300)%nat. lia.
Defined.

Example long_command_length_byte :
  Z.of_nat (strlen long_command) = 300
  /\ Z.of_nat (strlen long_command) mod 256 = 44.
Proof. split; vm_compute; reflexivity. Qed.

End FrameFacts.

(* ===================================================================== *)
(** * Address resolution                                                  *)
(* ===================================================================== *)

Module AddressFacts.
Import Libc Sys Client Notions LibcFacts.

Lemma digit_no_colon (c : ascii) :
  isdigit c = true -> Ascii.eqb c ":" = false.
Proof.
  destruct c as [[] [] [] [] [] [] [] []]; intros H;
    try discriminate H; reflexivity.
Qed.

(** *** The dotted quad *)

Lemma pton4_loop_length (s : string) : forall done cur saw octets res,
  pton4_loop s done cur saw octets = Some res ->
  (if saw then S (List.length done) = octets
   else List.length done = octets /\ (octets < 4)%nat) ->
  (octets <= 4)%nat ->
  List.length res = 4%nat.
Proof.
  assert (Hfin : forall done cur (saw : bool) octets res,
    pton4_finish done cur octets = Some res ->
    (if saw then S (List.length done) = octets
     else List.length done = octets /\ (octets < 4)%nat) ->
    (octets <= 4)%nat -> List.length res = 4%nat).
  { intros done cur saw octets res H Hinv Hle. unfold pton4_finish in H.
    destruct (Nat.ltb_spec octets 4); [discriminate |].
    injection H as <-. rewrite length_app. simpl.
    destruct saw; lia. }
  induction s as [| ch r IH]; intros done cur saw octets res H Hinv Hle.
  - exact (Hfin _ _ _ _ _ H Hinv Hle).
  - cbn [pton4_loop] in H.
    destruct (is_nul ch); [exact (Hfin _ _ _ _ _ H Hinv Hle) |].
    destruct (isdigit ch).
    + destruct (saw && (cur =? 0)); [discriminate |].
      destruct (cur * 10 + digit_value ch >? 255); [discriminate |].
      destruct saw.
      * apply (IH _ _ _ _ _ H); assumption.
      * destruct (Nat.ltb_spec 4 (S octets)); [discriminate |].
        apply (IH _ _ _ _ _ H); [lia | lia].
    + destruct (Ascii.eqb ch "." && saw) eqn:E; [| discriminate].
      apply andb_prop in E. destruct E as [_ ->].
      destruct (Nat.eqb_spec octets 4); [discriminate |].
      apply (IH _ _ _ _ _ H); [| lia].
      rewrite length_app. simpl. lia.
Qed.

Lemma inet_pton4_length (src : string) (dst : list Z) :
  inet_pton4 src = Some dst -> List.length dst = 4%nat.
Proof.
  intros H. apply (pton4_loop_length _ _ _ _ _ _ H); simpl; lia.
Qed.

Lemma pton4_loop_no_colon (s : string) : forall done cur saw octets res,
  pton4_loop s done cur saw octets = Some res -> has_colon s = false.
Proof.
  induction s as [| ch r IH]; intros done cur saw octets res H; trivial.
  cbn [pton4_loop] in H. cbn [has_colon].
  destruct (is_nul ch); trivial.
  destruct (isdigit ch) eqn:Ed.
  - rewrite (digit_no_colon ch Ed). cbn [orb].
    destruct (saw && (cur =? 0)); [discriminate |].
    destruct (cur * 10 + digit_value ch >? 255); [discriminate |].
    destruct saw.
    + exact (IH _ _ _ _ _ H).
    + destruct (4 <? S octets)%nat; [discriminate |].
      exact (IH _ _ _ _ _ H).
  - destruct (Ascii.eqb ch "." && saw) eqn:E; [| discriminate].
    apply andb_prop in E. destruct E as [Edot _].
    apply Ascii.eqb_eq in Edot. subst ch. cbn [orb Ascii.eqb].
    destruct (octets =? 4)%nat; [discriminate |].
    exact (IH _ _ _ _ _ H).
Qed.

(** *** The IPv6 form *)

Lemma pton6_finish_length (tp : list Z) (colonp : option nat)
    (xdigits_seen : nat) (val : Z) (res : list Z) :
  pton6_finish tp colonp xdigits_seen val = Some res ->
  (List.length tp <= 16)%nat ->
  List.length res = 16%nat.
Proof.
  unfold pton6_finish, NS_IN6ADDRSZ. intros H Htp.
  assert (Hflush : forall tp' : list Z,
    (List.length tp' <= 16)%nat ->
    match colonp with
    | Some k =>
        if (List.length tp' =? 16)%nat then None
        else Some (firstn k tp' ++ repeat 0 (16 - List.length tp')
                     ++ skipn k tp')
    | None => if (List.length tp' =? 16)%nat then Some tp' else None
    end = Some res -> List.length res = 16%nat).
  { intros tp' Hle Hres. destruct colonp as [k |].
    - destruct (Nat.eqb_spec (List.length tp') 16); [discriminate |].
      replace res with (firstn k tp' ++ repeat 0 (16 - List.length tp')
                          ++ skipn k tp') by congruence.
      rewrite !length_app, repeat_length.
      pose proof (f_equal (@List.length Z) (firstn_skipn k tp')) as Hfs.
      rewrite length_app in Hfs. lia.
    - destruct (Nat.eqb_spec (List.length tp') 16); [| discriminate].
      now injection Hres as <-. }
  destruct (0 <? xdigits_seen)%nat.
  - destruct (Nat.ltb_spec 16 (List.length tp + 2)); [discriminate |].
    apply (Hflush (tp ++ group_bytes val)); [| exact H].
    rewrite length_app. cbn [group_bytes List.length]. lia.
  - apply (Hflush _ Htp H).
Qed.

Lemma pton6_loop_length (s : string) : forall curtok tp colonp xd val res,
  pton6_loop s curtok tp colonp xd val = Some res ->
  (List.length tp <= 16)%nat ->
  List.length res = 16%nat.
Proof.
  induction s as [| ch r IH]; intros curtok tp colonp xd val res H Htp.
  - exact (pton6_finish_length _ _ _ _ _ H Htp).
  - cbn [pton6_loop] in H.
    destruct (is_nul ch); [exact (pton6_finish_length _ _ _ _ _ H Htp) |].
    destruct (hex_digit_value ch) as [digit |].
    + destruct (xd =? 4)%nat; [discriminate |].
      destruct (Z.lor (Z.shiftl val 4) digit >? 65535); [discriminate |].
      exact (IH _ _ _ _ _ _ H Htp).
    + destruct (Ascii.eqb ch ":").
      * destruct (xd =? 0)%nat.
        -- destruct colonp; [discriminate |]. exact (IH _ _ _ _ _ _ H Htp).
        -- destruct (is_nul (deref r)); [discriminate |].
           unfold NS_IN6ADDRSZ in H.
           destruct (Nat.ltb_spec 16 (List.length tp + 2)); [discriminate |].
           apply (IH _ _ _ _ _ _ H). rewrite length_app. simpl. lia.
      * unfold NS_IN6ADDRSZ, NS_INADDRSZ in H.
        destruct (Ascii.eqb ch "." && (List.length tp + 4 <=? 16)%nat) eqn:E;
          [| discriminate].
        apply andb_prop in E. destruct E as [_ E].
        apply Nat.leb_le in E.
        destruct (inet_pton4 curtok) as [quad |] eqn:Eq; [| discriminate].
        apply (pton6_finish_length _ _ _ _ _ H).
        rewrite length_app, (inet_pton4_length _ _ Eq). lia.
Qed.

Lemma inet_pton6_length (src : string) (dst : list Z) :
  inet_pton6 src = Some dst -> List.length dst = 16%nat.
Proof.
  unfold inet_pton6. intros H.
  destruct (is_nul (deref src)); [discriminate |].
  destruct (Ascii.eqb (deref src) ":").
  - destruct (negb (Ascii.eqb (deref (next src)) ":")); [discriminate |].
    apply (pton6_loop_length _ _ _ _ _ _ _ H). simpl. lia.
  - apply (pton6_loop_length _ _ _ _ _ _ _ H). simpl. lia.
Qed.

(** Without a colon no group is ever stored, so the sixteen bytes are
    never filled. *)
Lemma pton6_loop_needs_colon (s : string) : forall curtok xd val,
  has_colon s = false -> pton6_loop s curtok [] None xd val = None.
Proof.
  assert (Hfin : forall xd val, pton6_finish [] None xd val = None).
  { intros xd val. unfold pton6_finish. destruct (0 <? xd)%nat; reflexivity. }
  induction s as [| ch r IH]; intros curtok xd val Hc.
  - apply Hfin.
  - cbn [pton6_loop]. cbn [has_colon] in Hc.
    destruct (is_nul ch); [apply Hfin |].
    apply orb_false_elim in Hc. destruct Hc as [Hch Hr].
    rewrite Hch.
    destruct (hex_digit_value ch) as [digit |].
    + destruct (xd =? 4)%nat; trivial.
      destruct (Z.lor (Z.shiftl val 4) digit >? 65535); trivial.
      now apply IH.
    + destruct (Ascii.eqb ch "." && _); trivial.
      destruct (inet_pton4 curtok) as [quad |] eqn:Eq; trivial.
      pose proof (inet_pton4_length _ _ Eq) as Hlen.
      unfold pton6_finish. cbn [Nat.ltb Nat.leb app].
      unfold NS_IN6ADDRSZ. rewrite Hlen. reflexivity.
Qed.

Lemma inet_pton6_has_colon (src : string) (dst : list Z) :
  inet_pton6 src = Some dst -> has_colon src = true.
Proof.
  unfold inet_pton6. intros H.
  destruct src as [| c r]; [discriminate |]. cbn [deref] in H.
  cbn [has_colon].
  destruct (is_nul c); [discriminate |].
  destruct (Ascii.eqb c ":") eqn:E; trivial. cbn [orb].
  destruct (has_colon r) eqn:Hr; trivial.
  rewrite pton6_loop_needs_colon in H; [discriminate |].
  cbn [has_colon]. destruct (is_nul c); trivial. now rewrite E, Hr.
Qed.

(** The two presentation formats do not overlap. *)
Lemma inet_pton_formats_disjoint (src : string) (dst : list Z) :
  inet_pton4 src = Some dst -> inet_pton6 src = None.
Proof.
  intros H4. destruct (inet_pton6 src) as [dst6 |] eqn:H6; trivial.
  apply inet_pton6_has_colon in H6.
  apply pton4_loop_no_colon in H4. congruence.
Qed.

Lemma inet_pton_AF_INET (src : string) :
  inet_pton AF_INET src =
    match inet_pton4 src with Some d => Pton_ok d | None => Pton_invalid end.
Proof. reflexivity. Qed.

Lemma inet_pton_AF_INET6 (src : string) :
  inet_pton AF_INET6 src =
    match inet_pton6 src with Some d => Pton_ok d | None => Pton_invalid end.
Proof. reflexivity. Qed.

Lemma convert_address_cases (address : string) :
  convert_address address =
    match inet_pton4 address, inet_pton6 address with
    | Some dst, _ =>
        ([Ev_stdout ("IPv4 found" ++ NL)],
         Ret {| ss_family := AF_INET; ss_port := 0;
                sin_addr := dst; sin6_addr := repeat 0 NS_IN6ADDRSZ |})
    | None, Some dst =>
        ([],
         Ret {| ss_family := AF_INET6; ss_port := 0;
                sin_addr := repeat 0 NS_INADDRSZ; sin6_addr := dst |})
    | None, None =>
        ([Ev_stderr (cstr address ++ " is not an IPv4 or IPv6 address"
                       ++ NL)],
         Exit EXIT_FAILURE)
    end.
Proof.
  unfold convert_address.
  rewrite inet_pton_AF_INET, inet_pton_AF_INET6.
  destruct (inet_pton4 address); [reflexivity |].
  destruct (inet_pton6 address); reflexivity.
Qed.

(** C3.  A valid IPv4 literal resolves to an endpoint of family [AF_INET]
    holding the four bytes parsed, whatever the IPv6 parser would say; a
    valid IPv6 literal is never a valid IPv4 literal and resolves to an
    endpoint of family [AF_INET6] holding the sixteen bytes parsed; a text
    that is neither ends the process with [EXIT_FAILURE] (which is not 0)
    after one message on the error stream that names the text. *)
Theorem convert_address_resolves (address : string) :
  (valid_ipv4 address ->
     exists addr,
       convert_address address = ([Ev_stdout ("IPv4 found" ++ NL)], Ret addr)
       /\ ss_family addr = AF_INET
       /\ inet_pton AF_INET address = Pton_ok (sin_addr addr)
       /\ List.length (sin_addr addr) = 4%nat)
  /\ (valid_ipv6 address ->
       ~ valid_ipv4 address
       /\ exists addr,
            convert_address address = ([], Ret addr)
            /\ ss_family addr = AF_INET6
            /\ inet_pton AF_INET6 address = Pton_ok (sin6_addr addr)
            /\ List.length (sin6_addr addr) = 16%nat)
  /\ (~ valid_ipv4 address -> ~ valid_ipv6 address ->
       convert_address address =
         ([Ev_stderr (cstr address ++ " is not an IPv4 or IPv6 address"
                        ++ NL)],
          Exit EXIT_FAILURE))
  /\ EXIT_FAILURE <> 0.
Proof.
  unfold valid_ipv4, valid_ipv6.
  rewrite inet_pton_AF_INET, inet_pton_AF_INET6, convert_address_cases.
  split; [| split; [| split; [| discriminate]]].
  - intros (dst & H).
    destruct (inet_pton4 address) as [d4 |] eqn:E4; [| discriminate].
    eexists. split; [reflexivity |]. cbn [ss_family sin_addr].
    repeat split. now apply inet_pton4_length with (src := address).
  - intros (dst & H).
    destruct (inet_pton6 address) as [d6 |] eqn:E6; [| discriminate].
    destruct (inet_pton4 address) as [d4 |] eqn:E4.
    + apply inet_pton_formats_disjoint in E4. congruence.
    + split; [intros (x & Hx); discriminate |].
      eexists. split; [reflexivity |]. cbn [ss_family sin6_addr].
      repeat split. now apply inet_pton6_length with (src := address).
  - intros H4 H6.
    destruct (inet_pton4 address) as [d4 |]; [exfalso; apply H4; eauto |].
    destruct (inet_pton6 address) as [d6 |]; [exfalso; apply H6; eauto |].
    reflexivity.
Qed.

Lemma convert_address_resolves_witness :
  (exists addr,
     convert_address "127.0.0.1" = ([Ev_stdout ("IPv4 found" ++ NL)], Ret addr)
     /\ ss_family addr = AF_INET
     /\ inet_pton AF_INET "127.0.0.1" = Pton_ok (sin_addr addr)
     /\ List.length (sin_addr addr) = 4%nat)
  /\ (exists addr,
        convert_address "::1" = ([], Ret addr)
        /\ ss_family addr = AF_INET6
        /\ inet_pton AF_INET6 "::1" = Pton_ok (sin6_addr addr)
        /\ List.length (sin6_addr addr) = 16%nat)
  /\ convert_address "not-an-ip" =
       ([Ev_stderr ("not-an-ip is not an IPv4 or IPv6 address" ++ NL)],
        Exit EXIT_FAILURE).
Proof.
  split; [| split].
  - apply (proj1 (convert_address_resolves "127.0.0.1")).
    eexists; reflexivity.
  - apply (proj1 (proj2 (convert_address_resolves "::1"))).
    eexists; reflexivity.
  - apply (proj1 (proj2 (proj2 (convert_address_resolves "not-an-ip")))).
    + intros (dst & H). discriminate H.
    + intros (dst & H). discriminate H.
Defined.

(** [socket_connect], with the sequencing carried out. *)
Lemma socket_connect_cases (env : environment) (sockfd : Z)
    (addr : sockaddr_storage) (port : Z) :
  socket_connect env sockfd addr port =
    match env_inet_ntop env (ss_family addr)
            (if ss_family addr =? AF_INET then sin_addr addr
             else sin6_addr addr) with
    | inr e => ([Ev_perror "inet_ntop" e], Exit EXIT_FAILURE)
    | inl addr_str =>
        let connecting :=
          Ev_stdout ("Connecting to " ++ cstr addr_str ++ ":" ++ dec port
                       ++ NL) in
        let addr' :=
          {| ss_family := ss_family addr; ss_port := htons port;
             sin_addr := sin_addr addr; sin6_addr := sin6_addr addr |} in
        let sizes :=
          Ev_stdout ("Sock fd: " ++ dec sockfd ++ NL
                       ++ "Addr: " ++ dec (ss_family addr) ++ NL
                       ++ "Size: " ++ dec SIZEOF_SOCKADDR_STORAGE) in
        if (ss_family addr =? AF_INET) || (ss_family addr =? AF_INET6) then
          if rv (env_connect env) =? -1 then
            ([connecting; sizes;
              Ev_connect sockfd addr' SIZEOF_SOCKADDR_STORAGE;
              Ev_perror "connect" (errno (env_connect env))],
             Exit EXIT_FAILURE)
          else
            ([connecting; sizes;
              Ev_connect sockfd addr' SIZEOF_SOCKADDR_STORAGE;
              Ev_stdout ("Connected to: " ++ cstr addr_str ++ ":" ++ dec port
                           ++ NL)],
             Ret addr')
        else
          ([connecting; Ev_stderr (internal_error_message (ss_family addr))],
           Exit EXIT_FAILURE)
    end.
Proof.
  unfold socket_connect.
  destruct (env_inet_ntop env (ss_family addr) _); [| reflexivity].
  cbv zeta.
  destruct (ss_family addr =? AF_INET).
  - cbn [orb]. destruct (rv (env_connect env) =? -1); reflexivity.
  - cbn [orb]. destruct (ss_family addr =? AF_INET6); [| reflexivity].
    destruct (rv (env_connect env) =? -1); reflexivity.
Qed.

(** C9.  An endpoint returned by [convert_address] has family [AF_INET] or
    [AF_INET6]; on such an endpoint [socket_connect] never takes its
    internal-error branch, the only place where it writes to the error
    stream with [fprintf]: that message is absent from its trace, and when
    it ends the process the last event is a [perror]. *)
Theorem convert_address_family (address : string) (t : list event)
    (addr : sockaddr_storage) :
  convert_address address = (t, Ret addr) ->
  (ss_family addr = AF_INET \/ ss_family addr = AF_INET6)
  /\ forall env sockfd port,
       (forall text,
          ~ In (Ev_stderr text)
               (trace (socket_connect env sockfd addr port)))
       /\ (forall status,
             result (socket_connect env sockfd addr port) = Exit status ->
             exists t' msg e,
               trace (socket_connect env sockfd addr port)
               = t' ++ [Ev_perror msg e]).
Proof.
  rewrite convert_address_cases. intros H.
  assert (Hfam : ss_family addr = AF_INET \/ ss_family addr = AF_INET6).
  { destruct (inet_pton4 address); [injection H as _ <-; now left |].
    destruct (inet_pton6 address); [injection H as _ <-; now right |].
    discriminate. }
  split; [exact Hfam |].
  intros env sockfd port. rewrite socket_connect_cases.
  assert (Hsel : (ss_family addr =? AF_INET) || (ss_family addr =? AF_INET6)
                 = true).
  { destruct Hfam as [-> | ->]; reflexivity. }
  rewrite Hsel.
  destruct (env_inet_ntop env (ss_family addr) _) as [addr_str | e].
  - cbv zeta. destruct (rv (env_connect env) =? -1); split.
    + intros text Hin. cbn [trace fst In] in Hin. intuition discriminate.
    + intros status _. cbn [trace fst]. eexists [_; _; _], _, _. reflexivity.
    + intros text Hin. cbn [trace fst In] in Hin. intuition discriminate.
    + intros status Hr. discriminate Hr.
  - split.
    + intros text Hin. cbn [trace fst In] in Hin. intuition discriminate.
    + intros status _. eexists [], _, _. reflexivity.
Qed.

Lemma convert_address_family_witness :
  ss_family {| ss_family := AF_INET; ss_port := 0;
               sin_addr := [127; 0; 0; 1];
               sin6_addr := repeat 0 NS_IN6ADDRSZ |} = AF_INET
  \/ ss_family {| ss_family := AF_INET; ss_port := 0;
                  sin_addr := [127; 0; 0; 1];
                  sin6_addr := repeat 0 NS_IN6ADDRSZ |} = AF_INET6.
Proof.
  refine (proj1 (convert_address_family "127.0.0.1" _ _ _)).
  reflexivity.
Defined.

(** The internal-error branch is live code for any other family: with the
    zeroed storage the message is written. *)
Example socket_connect_internal_error (env : environment) (sockfd port : Z)
    (addr_str : string) :
  env_inet_ntop env 0 (sin6_addr zeroed_storage) = inl addr_str ->
  result (socket_connect env sockfd zeroed_storage port) = Exit EXIT_FAILURE
  /\ In (Ev_stderr (internal_error_message 0))
        (trace (socket_connect env sockfd zeroed_storage port)).
Proof.
  intros H. rewrite socket_connect_cases.
  change (ss_family zeroed_storage) with 0.
  change (0 =? AF_INET) with false. change (0 =? AF_INET6) with false.
  cbv iota. rewrite H. cbn [orb]. cbv zeta iota.
  split; [reflexivity |]. cbn [trace fst In]. auto.
Qed.

End AddressFacts.

(* ===================================================================== *)
(** * Runs of the whole program                                           *)
(* ===================================================================== *)

Module RunFacts.
Import Libc Sys Client Notions LibcFacts PortFacts FrameFacts AddressFacts.

Lemma bind_ret {A B} (a : A) (k : A -> proc B) : bind (ret a) k = k a.
Proof. unfold bind, ret. destruct (k a). reflexivity. Qed.

Lemma usage_cases {A} (program_name : string) (exit_code : Z)
    (message : option string) :
  @usage A program_name exit_code message =
    (match message with
     | Some m => [Ev_stderr (cstr m ++ NL)]
     | None => []
     end ++ usage_lines program_name,
     Exit exit_code).
Proof. destruct message; reflexivity. Qed.

Lemma parse_arguments_outcome (argv0 : string) (args : list string) :
  (exists code msg, parse_arguments argv0 args = usage argv0 code msg)
  \/ (exists a b c, parse_arguments argv0 args = ([], Ret (a, b, c))).
Proof.
  unfold parse_arguments. cbv zeta.
  destruct (negb (go_ret (getopt argv0 args "h:") =? -1)).
  - left. destruct (go_ret _ =? code "h"); [do 2 eexists; reflexivity |].
    destruct (go_ret _ =? code "?"); do 2 eexists; reflexivity.
  - destruct (_ <? 4); [left; do 2 eexists; reflexivity |].
    destruct (_ >? 4); [left; do 2 eexists; reflexivity |].
    right. do 3 eexists. reflexivity.
Qed.

Lemma parse_in_port_t_outcome (binary_name text : string) :
  (exists code msg, parse_in_port_t binary_name text
                    = usage binary_name code msg)
  \/ (exists e, parse_in_port_t binary_name text
                = ([Ev_perror "Error parsing in_port_t." e],
                   Exit EXIT_FAILURE))
  \/ (exists port, parse_in_port_t binary_name text = ([], Ret port)).
Proof.
  rewrite parse_in_port_t_unfold. cbv zeta.
  destruct (negb (st_errno (strtoumax text) =? 0));
    [right; left; eexists; reflexivity |].
  destruct (negb (is_nul _)); [left; do 2 eexists; reflexivity |].
  destruct (_ >? UINT16_MAX); [left; do 2 eexists; reflexivity |].
  right; right; eexists; reflexivity.
Qed.

(** [session], with the sequencing carried out. *)
Lemma session_cases (env : environment) (addr : sockaddr_storage) (port : Z)
    (cmd : string) :
  session env addr port (Some cmd) =
    let sockfd := rv (env_socket env) in
    let created := Ev_socket (ss_family addr) SOCK_STREAM 0 in
    if sockfd =? -1 then
      ([created; Ev_stderr ("Socket creation failed" ++ NL)],
       Exit EXIT_FAILURE)
    else
      match socket_connect env sockfd addr port with
      | (t, Ret _) =>
          if rv (env_close env) =? -1 then
            (created :: t ++ exchange_events env sockfd cmd
               ++ [Ev_perror "error closing socket" (errno (env_close env))],
             Exit EXIT_FAILURE)
          else (created :: t ++ exchange_events env sockfd cmd, Ret 0)
      | (t, Exit status) => (created :: t, Exit status)
      | (t, Fault) => (created :: t, Fault)
      end.
Proof.
  unfold session, socket_create. cbv zeta.
  destruct (rv (env_socket env) =? -1); [reflexivity |].
  cbn [emit bind ret app].
  destruct (socket_connect env (rv (env_socket env)) addr port)
    as [t [addr' | status |]]; [| reflexivity | reflexivity].
  cbn [string_at ret bind app].
  rewrite write_to_socket_events.
  unfold read_from_socket, socket_close, exchange_events, received.
  destruct (env_recv env) as [bytes | e];
    destruct (rv (env_close env) =? -1); cbn;
    rewrite ?app_nil_r; reflexivity.
Qed.

(** How a run begins: with an argument error, with a conversion error of
    the port, or with address resolution followed by the session. *)
Lemma main_outcome (env : environment) (argv0 : string) (args : list string) :
  (exists code msg, main env argv0 args = usage argv0 code msg)
  \/ (exists e, main env argv0 args
                = ([Ev_perror "Error parsing in_port_t." e],
                   Exit EXIT_FAILURE))
  \/ (exists ip ptext cmd port,
        parse_in_port_t argv0 ptext = ([], Ret port)
        /\ main env argv0 args
           = bind (convert_address ip)
               (fun addr => session env addr port (Some cmd))).
Proof.
  unfold main.
  destruct (parse_arguments_outcome argv0 args)
    as [(code & msg & E) | (a & b & c & E)]; rewrite E.
  - left. exists code, msg. rewrite !usage_cases. reflexivity.
  - change (@nil event, Ret (a, b, c)) with (ret (a, b, c)).
    rewrite bind_ret.
    destruct a as [ip |];
      [| left; exists EXIT_FAILURE, (Some "The ip address is required.");
         cbn [handle_arguments]; rewrite !usage_cases; reflexivity].
    destruct b as [ptext |];
      [| left; exists EXIT_FAILURE, (Some "The port is required.");
         cbn [handle_arguments]; rewrite !usage_cases; reflexivity].
    destruct c as [cmd |];
      [| left; exists EXIT_FAILURE, (Some "The command is required.");
         cbn [handle_arguments]; rewrite !usage_cases; reflexivity].
    cbn [handle_arguments].
    destruct (parse_in_port_t_outcome argv0 ptext)
      as [(code & msg & Ep) | [(e & Ep) | (port & Ep)]].
    + left. exists code, msg. rewrite Ep, !usage_cases. reflexivity.
    + right; left. exists e. rewrite Ep. reflexivity.
    + right; right. exists ip, ptext, cmd, port. split; [exact Ep |].
      rewrite Ep. change (@nil event, Ret port) with (ret port).
      rewrite bind_ret. cbn [string_at]. rewrite bind_ret. reflexivity.
Qed.

(** The same, with address resolution carried out. *)
Lemma main_run_cases (env : environment) (argv0 : string)
    (args : list string) :
  (exists code msg, main env argv0 args = usage argv0 code msg)
  \/ (exists e, main env argv0 args
                = ([Ev_perror "Error parsing in_port_t." e],
                   Exit EXIT_FAILURE))
  \/ (exists ip, main env argv0 args
                 = ([Ev_stderr (cstr ip ++ " is not an IPv4 or IPv6 address"
                                  ++ NL)],
                    Exit EXIT_FAILURE))
  \/ (exists tc addr port cmd,
        (tc = [] \/ tc = [Ev_stdout ("IPv4 found" ++ NL)])
        /\ (ss_family addr =? AF_INET) || (ss_family addr =? AF_INET6) = true
        /\ main env argv0 args
           = (tc ++ trace (session env addr port (Some cmd)),
              result (session env addr port (Some cmd)))).
Proof.
  destruct (main_outcome env argv0 args)
    as [H | [H | (ip & ptext & cmd & port & _ & E)]]; auto.
  right; right. rewrite E, convert_address_cases.
  destruct (inet_pton4 ip) as [d4 |].
  - right.
    exists [Ev_stdout ("IPv4 found" ++ NL)],
      {| ss_family := AF_INET; ss_port := 0;
         sin_addr := d4; sin6_addr := repeat 0 NS_IN6ADDRSZ |}, port, cmd.
    split; [right; reflexivity |]. split; [reflexivity |].
    cbn [bind]. destruct (session env _ port (Some cmd)). reflexivity.
  - destruct (inet_pton6 ip) as [d6 |].
    + right.
      exists [],
        {| ss_family := AF_INET6; ss_port := 0;
           sin_addr := repeat 0 NS_INADDRSZ; sin6_addr := d6 |}, port, cmd.
      split; [left; reflexivity |]. split; [reflexivity |].
      cbn [bind]. destruct (session env _ port (Some cmd)). reflexivity.
    + left. exists ip. reflexivity.
Qed.

(** Case analysis on the way a run begins. *)
Ltac run_cases env argv0 args :=
  let code := fresh "code" in
  let msg := fresh "msg" in
  let e := fresh "e" in
  let ip := fresh "ip" in
  let tc := fresh "tc" in
  let addr := fresh "addr" in
  let port := fresh "port" in
  let cmd := fresh "cmd" in
  let E := fresh "E" in
  let Htc := fresh "Htc" in
  let Hfam := fresh "Hfam" in
  destruct (main_run_cases env argv0 args)
    as [(code & msg & E) | [(e & E) | [(ip & E) |
        (tc & addr & port & cmd & Htc & Hfam & E)]]].

(** The outcomes of a session on an endpoint of a supported family. *)
Lemma session_outcomes (env : environment) (addr : sockaddr_storage)
    (port : Z) (cmd : string) :
  (ss_family addr =? AF_INET) || (ss_family addr =? AF_INET6) = true ->
  let sockfd := rv (env_socket env) in
  let created := Ev_socket (ss_family addr) SOCK_STREAM 0 in
  (* the socket cannot be created *)
  session env addr port (Some cmd)
    = ([created; Ev_stderr ("Socket creation failed" ++ NL)],
       Exit EXIT_FAILURE)
  (* the address cannot be rendered, or the connection fails *)
  \/ (exists t msg e,
        session env addr port (Some cmd)
          = (created :: t ++ [Ev_perror msg e], Exit EXIT_FAILURE)
        /\ existsb is_close_event t = false
        /\ msg <> "error closing socket")
  (* the exchange takes place and close fails *)
  \/ (exists t e,
        session env addr port (Some cmd)
          = (created :: t ++ exchange_events env sockfd cmd
               ++ [Ev_perror "error closing socket" e],
             Exit EXIT_FAILURE)
        /\ existsb is_close_event t = false
        /\ existsb is_diagnostic t = false)
  (* the exchange takes place and the socket is closed *)
  \/ (exists t,
        session env addr port (Some cmd)
          = (created :: t ++ exchange_events env sockfd cmd, Ret 0)
        /\ existsb is_close_event t = false
        /\ existsb is_diagnostic t = false).
Proof.
  intros Hfam sockfd created. rewrite session_cases. cbv zeta.
  fold sockfd. fold created.
  destruct (sockfd =? -1); [left; reflexivity |]. right.
  rewrite socket_connect_cases, Hfam.
  destruct (env_inet_ntop env (ss_family addr) _) as [addr_str | e].
  - cbv zeta. destruct (rv (env_connect env) =? -1).
    + left. eexists [_; _; _], _, _.
      split; [reflexivity |]. split; [reflexivity | discriminate].
    + right. destruct (rv (env_close env) =? -1).
      * left. eexists [_; _; _; _], _.
        split; [reflexivity |]. split; reflexivity.
      * right. eexists [_; _; _; _].
        split; [reflexivity |]. split; reflexivity.
  - left. eexists [], _, _.
    split; [reflexivity |]. split; [reflexivity | discriminate].
Qed.

(** *** Runs with three operands *)

Lemma parse_arguments_operands (argv0 ip ptext cmd : string) :
  nonoption ip = true -> nonoption ptext = true -> nonoption cmd = true ->
  parse_arguments argv0 [ip; ptext; cmd]
  = ([], Ret (Some ip, Some ptext, Some cmd)).
Proof.
  intros H1 H2 H3. unfold parse_arguments, getopt.
  cbn [skip_nonoptions]. rewrite H1, H2, H3. reflexivity.
Qed.

Lemma main_operands (env : environment) (argv0 ip ptext cmd : string)
    (port : Z) (tc : list event) (addr : sockaddr_storage) :
  nonoption ip = true -> nonoption ptext = true -> nonoption cmd = true ->
  parse_in_port_t argv0 ptext = ([], Ret port) ->
  convert_address ip = (tc, Ret addr) ->
  main env argv0 [ip; ptext; cmd]
  = (tc ++ trace (session env addr port (Some cmd)),
     result (session env addr port (Some cmd))).
Proof.
  intros H1 H2 H3 Hp Hc. unfold main.
  rewrite (parse_arguments_operands argv0 ip ptext cmd H1 H2 H3).
  change (@nil event, Ret (Some ip, Some ptext, Some cmd))
    with (ret (Some ip, Some ptext, Some cmd)).
  rewrite bind_ret. cbn [handle_arguments]. rewrite Hp.
  change (@nil event, Ret port) with (ret port).
  rewrite bind_ret. cbn [string_at]. rewrite bind_ret, Hc.
  cbn [bind].
  change (bind (socket_create env (ss_family addr) SOCK_STREAM 0) _)
    with (session env addr port (Some cmd)).
  destruct (session env addr port (Some cmd)). reflexivity.
Qed.

(** A run whose arguments are valid and whose connection is established:
    the set-up, the exchange, and the outcome of [close]. *)
Lemma main_connected (env : environment) (argv0 ip ptext cmd : string)
    (port : Z) (tc : list event) (addr : sockaddr_storage)
    (addr_str : string) :
  established env argv0 ip ptext cmd port tc addr addr_str ->
  let sockfd := rv (env_socket env) in
  main env argv0 [ip; ptext; cmd] =
    if rv (env_close env) =? -1 then
      (tc ++ setup_events sockfd addr port addr_str
         ++ exchange_events env sockfd cmd
         ++ [Ev_perror "error closing socket" (errno (env_close env))],
       Exit EXIT_FAILURE)
    else
      (tc ++ setup_events sockfd addr port addr_str
         ++ exchange_events env sockfd cmd,
       Ret 0).
Proof.
  intros (H1 & H2 & H3 & Hp & Hc & Hs & Hn & Hk) sockfd.
  rewrite (main_operands env argv0 ip ptext cmd port tc addr H1 H2 H3 Hp Hc).
  rewrite session_cases. cbv zeta. fold sockfd.
  destruct (Z.eqb_spec sockfd (-1)) as [E | _]; [contradiction |].
  rewrite socket_connect_cases, Hn. cbv zeta.
  assert (Hfam : (ss_family addr =? AF_INET) || (ss_family addr =? AF_INET6)
                 = true).
  { rewrite convert_address_cases in Hc.
    destruct (inet_pton4 ip); [now injection Hc as _ <- |].
    destruct (inet_pton6 ip); [now injection Hc as _ <- | discriminate]. }
  rewrite Hfam.
  destruct (Z.eqb_spec (rv (env_connect env)) (-1)) as [E | _];
    [contradiction |].
  unfold setup_events.
  destruct (rv (env_close env) =? -1); reflexivity.
Qed.

Lemma resolved_trace (ip : string) (tc : list event)
    (addr : sockaddr_storage) :
  convert_address ip = (tc, Ret addr) ->
  tc = [] \/ tc = [Ev_stdout ("IPv4 found" ++ NL)].
Proof.
  rewrite convert_address_cases.
  destruct (inet_pton4 ip); [intros [= <- _]; now right |].
  destruct (inet_pton6 ip); [intros [= <- _]; now left | discriminate].
Qed.

(** Once the connection is established, the exit status depends on [close]
    alone: whatever [send], [write] and [recv] report, the run ends with
    status 0 and without a diagnostic when [close] succeeds. *)
Lemma main_status_ignores_exchange (env : environment)
    (argv0 ip ptext cmd : string) (port : Z) (tc : list event)
    (addr : sockaddr_storage) (addr_str : string) :
  established env argv0 ip ptext cmd port tc addr addr_str ->
  rv (env_close env) <> -1 ->
  exit_status (main env argv0 [ip; ptext; cmd]) = Some 0
  /\ existsb is_diagnostic (trace (main env argv0 [ip; ptext; cmd])) = false.
Proof.
  intros He Hcl.
  rewrite (main_connected env argv0 ip ptext cmd port tc addr addr_str He).
  cbv zeta.
  destruct (Z.eqb_spec (rv (env_close env)) (-1)) as [E | _];
    [contradiction |].
  split; [reflexivity |].
  destruct He as (_ & _ & _ & _ & Hc & _).
  cbn [trace fst]. rewrite existsb_app.
  destruct (resolved_trace ip tc addr Hc) as [-> | ->]; reflexivity.
Qed.

Lemma usage_no_close {A} (program_name : string) (code : Z)
    (msg : option string) :
  existsb is_close_event (trace (@usage A program_name code msg)) = false.
Proof. rewrite usage_cases. destruct msg; reflexivity. Qed.

Lemma usage_ends_diagnostic {A} (program_name : string) (code : Z)
    (msg : option string) :
  exists t' e,
    trace (@usage A program_name code msg) = t' ++ [e]
    /\ is_diagnostic e = true.
Proof.
  rewrite usage_cases.
  exists (match msg with
          | Some m => [Ev_stderr (cstr m ++ NL)]
          | None => []
          end ++ firstn 2 (usage_lines program_name)),
    (Ev_stderr (" -h Display this help message" ++ NL)).
  split; [| reflexivity].
  cbn [trace fst]. rewrite <- app_assoc. reflexivity.
Qed.

Lemma resolved_no_close (tc : list event) :
  tc = [] \/ tc = [Ev_stdout ("IPv4 found" ++ NL)] ->
  existsb is_close_event tc = false /\ existsb is_diagnostic tc = false.
Proof. intros [-> | ->]; split; reflexivity. Qed.

(** C4 (as amended).  Error reports go to the error stream: whenever the
    process exits with a non-zero status, the last thing it did was to
    write a diagnostic there.  The output stream receives the progress
    messages of the client besides the reply: when the arguments are valid,
    the connection is established, the peer sends [reply] and [close]
    succeeds, the run consists of the events listed and [main] returns 0.
    In particular, when the peer closes without sending, the single
    receive yields 0 bytes, "Read bytes: 0" is printed, zero reply bytes
    are written to the standard output, the socket is closed and [main]
    returns 0. *)
Theorem main_streams (env : environment) (argv0 : string) :
  (forall args status,
     result (main env argv0 args) = Exit status -> status <> 0 ->
     exists t' e,
       trace (main env argv0 args) = t' ++ [e] /\ is_diagnostic e = true)
  /\ (forall ip ptext cmd port tc addr addr_str reply,
        established env argv0 ip ptext cmd port tc addr addr_str ->
        env_recv env = Recv_data reply ->
        rv (env_close env) <> -1 ->
        let sockfd := rv (env_socket env) in
        let got := firstn LINE_LENGTH reply in
        main env argv0 [ip; ptext; cmd] =
          (tc ++ setup_events sockfd addr port addr_str ++
           [Ev_send sockfd [Z.of_nat (strlen cmd) mod 2 ^ 8] 1 0;
            Ev_write sockfd (payload_of cmd) (Z.of_nat (strlen cmd));
            Ev_recv sockfd (Z.of_nat LINE_LENGTH) 0;
            Ev_stdout ("Read bytes: " ++ dec (Z.of_nat (List.length got))
                         ++ NL);
            Ev_write STDOUT_FILENO got (Z.of_nat (List.length got));
            Ev_close sockfd],
           Ret 0))
  /\ (forall ip ptext cmd port tc addr addr_str,
        established env argv0 ip ptext cmd port tc addr addr_str ->
        env_recv env = Recv_data [] ->
        rv (env_close env) <> -1 ->
        let sockfd := rv (env_socket env) in
        main env argv0 [ip; ptext; cmd] =
          (tc ++ setup_events sockfd addr port addr_str ++
           [Ev_send sockfd [Z.of_nat (strlen cmd) mod 2 ^ 8] 1 0;
            Ev_write sockfd (payload_of cmd) (Z.of_nat (strlen cmd));
            Ev_recv sockfd (Z.of_nat LINE_LENGTH) 0;
            Ev_stdout ("Read bytes: 0" ++ NL);
            Ev_write STDOUT_FILENO [] 0;
            Ev_close sockfd],
           Ret 0)).
Proof.
  assert (Hreply : forall ip ptext cmd port tc addr addr_str reply,
        established env argv0 ip ptext cmd port tc addr addr_str ->
        env_recv env = Recv_data reply ->
        rv (env_close env) <> -1 ->
        let sockfd := rv (env_socket env) in
        let got := firstn LINE_LENGTH reply in
        main env argv0 [ip; ptext; cmd] =
          (tc ++ setup_events sockfd addr port addr_str ++
           [Ev_send sockfd [Z.of_nat (strlen cmd) mod 2 ^ 8] 1 0;
            Ev_write sockfd (payload_of cmd) (Z.of_nat (strlen cmd));
            Ev_recv sockfd (Z.of_nat LINE_LENGTH) 0;
            Ev_stdout ("Read bytes: " ++ dec (Z.of_nat (List.length got))
                         ++ NL);
            Ev_write STDOUT_FILENO got (Z.of_nat (List.length got));
            Ev_close sockfd],
           Ret 0)).
  { intros ip ptext cmd port tc addr addr_str reply He Hr Hcl sockfd got.
    rewrite (main_connected env argv0 ip ptext cmd port tc addr addr_str He).
    cbv zeta. fold sockfd.
    destruct (Z.eqb_spec (rv (env_close env)) (-1)) as [E | _];
      [contradiction |].
    unfold exchange_events, received. rewrite Hr. fold got.
    cbn [fst snd].
    assert (Hsmall : Z.of_nat (List.length got) mod 2 ^ 64
                     = Z.of_nat (List.length got)).
    { apply Z.mod_small. pose proof (firstn_le_length LINE_LENGTH reply).
      fold got in H. unfold LINE_LENGTH in H.
      change (2 ^ 64) with 18446744073709551616. lia. }
    rewrite Hsmall. reflexivity. }
  split; [| split; [exact Hreply |]].
  - intros args status Hres Hst.
    run_cases env argv0 args.
    + rewrite E. apply usage_ends_diagnostic.
    + rewrite E. exists [], (Ev_perror "Error parsing in_port_t." e).
      split; reflexivity.
    + rewrite E.
      exists [],
        (Ev_stderr (cstr ip ++ " is not an IPv4 or IPv6 address" ++ NL)).
      split; reflexivity.
    + rewrite E in Hres |- *. cbn [trace result fst snd] in Hres |- *.
      destruct (session_outcomes env addr port cmd Hfam)
        as [S | [(t & msg & e & S & _) | [(t & e & S & _) | (t & S & _)]]];
        rewrite S in Hres |- *; cbn [trace result fst snd] in Hres |- *.
      * exists (tc ++ [Ev_socket (ss_family addr) SOCK_STREAM 0]),
          (Ev_stderr ("Socket creation failed" ++ NL)).
        split; [| reflexivity]. rewrite <- app_assoc. reflexivity.
      * exists (tc ++ Ev_socket (ss_family addr) SOCK_STREAM 0 :: t),
          (Ev_perror msg e).
        split; [| reflexivity]. rewrite <- app_assoc. reflexivity.
      * exists (tc ++ Ev_socket (ss_family addr) SOCK_STREAM 0 :: t
                  ++ exchange_events env (rv (env_socket env)) cmd),
          (Ev_perror "error closing socket" e).
        split; [| reflexivity].
        rewrite <- !app_assoc. cbn [app]. rewrite <- !app_assoc. reflexivity.
      * discriminate Hres.
  - intros ip ptext cmd port tc addr addr_str He Hr Hcl.
    exact (Hreply ip ptext cmd port tc addr addr_str [] He Hr Hcl).
Qed.

Lemma main_streams_witness :
  (exists t' e,
     trace (main env_refused "client" ["127.0.0.1"; "9000"; "PING"])
     = t' ++ [e] /\ is_diagnostic e = true)
  /\ main (env_reply [80; 79; 78; 71]) "client" ["127.0.0.1"; "9000"; "PING"] =
       ([Ev_stdout ("IPv4 found" ++ NL);
         Ev_socket AF_INET SOCK_STREAM 0;
         Ev_stdout ("Connecting to 127.0.0.1:9000" ++ NL);
         Ev_stdout ("Sock fd: 3" ++ NL ++ "Addr: 2" ++ NL ++ "Size: 128");
         Ev_connect 3
           {| ss_family := AF_INET; ss_port := htons 9000;
              sin_addr := [127; 0; 0; 1];
              sin6_addr := repeat 0 NS_IN6ADDRSZ |}
           SIZEOF_SOCKADDR_STORAGE;
         Ev_stdout ("Connected to: 127.0.0.1:9000" ++ NL);
         Ev_send 3 [4] 1 0;
         Ev_write 3 [80; 73; 78; 71] 4;
         Ev_recv 3 1024 0;
         Ev_stdout ("Read bytes: 4" ++ NL);
         Ev_write STDOUT_FILENO [80; 79; 78; 71] 4;
         Ev_close 3],
        Ret 0)
  /\ main env_peer_closed "client" ["127.0.0.1"; "9000"; "PING"] =
       ([Ev_stdout ("IPv4 found" ++ NL);
         Ev_socket AF_INET SOCK_STREAM 0;
         Ev_stdout ("Connecting to 127.0.0.1:9000" ++ NL);
         Ev_stdout ("Sock fd: 3" ++ NL ++ "Addr: 2" ++ NL ++ "Size: 128");
         Ev_connect 3
           {| ss_family := AF_INET; ss_port := htons 9000;
              sin_addr := [127; 0; 0; 1];
              sin6_addr := repeat 0 NS_IN6ADDRSZ |}
           SIZEOF_SOCKADDR_STORAGE;
         Ev_stdout ("Connected to: 127.0.0.1:9000" ++ NL);
         Ev_send 3 [4] 1 0;
         Ev_write 3 [80; 73; 78; 71] 4;
         Ev_recv 3 1024 0;
         Ev_stdout ("Read bytes: 0" ++ NL);
         Ev_write STDOUT_FILENO [] 0;
         Ev_close 3],
        Ret 0).
Proof.
  destruct (main_streams env_refused "client") as (Ha & _ & _).
  destruct (main_streams (env_reply [80; 79; 78; 71]) "client")
    as (_ & Hb & _).
  destruct (main_streams env_peer_closed "client") as (_ & _ & Hc).
  split; [| split].
  - apply (Ha ["127.0.0.1"; "9000"; "PING"] EXIT_FAILURE).
    + reflexivity.
    + discriminate.
  - apply (Hb "127.0.0.1" "9000" "PING" 9000
              [Ev_stdout ("IPv4 found" ++ NL)]
              {| ss_family := AF_INET; ss_port := 0;
                 sin_addr := [127; 0; 0; 1];
                 sin6_addr := repeat 0 NS_IN6ADDRSZ |}
              "127.0.0.1" [80; 79; 78; 71]).
    + unfold established. repeat split; discriminate.
    + reflexivity.
    + discriminate.
  - apply (Hc "127.0.0.1" "9000" "PING" 9000
              [Ev_stdout ("IPv4 found" ++ NL)]
              {| ss_family := AF_INET; ss_port := 0;
                 sin_addr := [127; 0; 0; 1];
                 sin6_addr := repeat 0 NS_IN6ADDRSZ |}
              "127.0.0.1").
    + unfold established. repeat split; discriminate.
    + reflexivity.
    + discriminate.
Defined.

(** C4, as stated, fails on this run: the peer closes without sending, no
    reply byte is written, and yet the standard output receives six lines
    of text. *)
Lemma main_prints_progress_on_stdout :
  exit_status (main env_peer_closed "client" ["127.0.0.1"; "9000"; "PING"])
  = Some 0
  /\ bytes_to STDOUT_FILENO
       (trace (main env_peer_closed "client" ["127.0.0.1"; "9000"; "PING"]))
     = []
  /\ stdout_text
       (trace (main env_peer_closed "client" ["127.0.0.1"; "9000"; "PING"]))
     = ("IPv4 found" ++ NL
        ++ "Connecting to 127.0.0.1:9000" ++ NL
        ++ "Sock fd: 3" ++ NL ++ "Addr: 2" ++ NL ++ "Size: 128"
        ++ "Connected to: 127.0.0.1:9000" ++ NL
        ++ "Read bytes: 0" ++ NL)%string
  /\ stdout_text
       (trace (main env_peer_closed "client" ["127.0.0.1"; "9000"; "PING"]))
     <> "".
Proof.
  split; [reflexivity |]. split; [reflexivity |].
  split; [reflexivity | discriminate].
Qed.

(** *** Errors of the exchange *)

(** C5 fails on the code: with the connection established, an error of
    [recv] (here a reset by the peer), and likewise errors of [send] and
    [write], leave the exit status at 0 and produce no diagnostic; after
    the failed receive the program asks [write] for [SIZE_MAX] bytes of its
    buffer. *)
Theorem main_exits_zero_on_io_error :
  (let run := main env_recv_reset "client" ["127.0.0.1"; "9000"; "PING"] in
   exit_status run = Some 0
   /\ existsb is_diagnostic (trace run) = false
   /\ In (Ev_stdout ("Read bytes: -1" ++ NL)) (trace run)
   /\ In (Ev_write STDOUT_FILENO [] SIZE_MAX) (trace run))
  /\ (forall send_errno write_errno recv_errno,
        let run := main (env_io_fails send_errno write_errno recv_errno)
                     "client" ["127.0.0.1"; "9000"; "PING"] in
        exit_status run = Some 0
        /\ existsb is_diagnostic (trace run) = false).
Proof.
  split.
  - cbv zeta. split; [reflexivity |]. split; [reflexivity |].
    split; vm_compute; tauto.
  - intros send_errno write_errno recv_errno. cbv zeta.
    split; reflexivity.
Qed.

(** *** Lifetime of the socket *)

(** C6, as stated, fails on this run: the socket is created, the connect
    step fails, and the process exits without any call of [close]. *)
Lemma main_connect_failure_leaves_socket :
  main env_refused "client" ["127.0.0.1"; "9000"; "PING"] =
    ([Ev_stdout ("IPv4 found" ++ NL);
      Ev_socket AF_INET SOCK_STREAM 0;
      Ev_stdout ("Connecting to 127.0.0.1:9000" ++ NL);
      Ev_stdout ("Sock fd: 3" ++ NL ++ "Addr: 2" ++ NL ++ "Size: 128");
      Ev_connect 3
        {| ss_family := AF_INET; ss_port := htons 9000;
           sin_addr := [127; 0; 0; 1];
           sin6_addr := repeat 0 NS_IN6ADDRSZ |}
        SIZEOF_SOCKADDR_STORAGE;
      Ev_perror "connect" ECONNREFUSED],
     Exit EXIT_FAILURE)
  /\ existsb is_close_event
       (trace (main env_refused "client" ["127.0.0.1"; "9000"; "PING"]))
     = false.
Proof. split; reflexivity. Qed.

Lemma exchange_events_close_last (env : environment) (sockfd : Z)
    (cmd : string) :
  exchange_events env sockfd cmd
  = firstn 5 (exchange_events env sockfd cmd) ++ [Ev_close sockfd]
  /\ existsb is_close_event (firstn 5 (exchange_events env sockfd cmd))
     = false.
Proof. split; reflexivity. Qed.

(** [main] never uses a null pointer as a string. *)
Lemma main_never_faults (env : environment) (argv0 : string)
    (args : list string) :
  result (main env argv0 args) <> Fault.
Proof.
  run_cases env argv0 args; rewrite E.
  - rewrite usage_cases. discriminate.
  - discriminate.
  - discriminate.
  - cbn [result snd].
    destruct (session_outcomes env addr port cmd Hfam)
      as [S | [(t & msg & e & S & _) | [(t & e & S & _) | (t & S & _)]]];
      rewrite S; discriminate.
Qed.

(** C6 (as amended).  The socket is closed on the path that completes the
    exchange and nowhere else.  When [main] returns, it returns 0 and the
    call of [close] on the socket is the last event, and the only close.
    When the process exits, either no [close] was called at all, or the
    exit is the failure of that very [close].  In particular, when the
    connect step fails the run never returns normally and contains no
    [close]. *)
Theorem main_socket_lifetime (env : environment) (argv0 : string)
    (args : list string) :
  let run := main env argv0 args in
  let sockfd := rv (env_socket env) in
  (forall v, result run = Ret v ->
     v = 0
     /\ exists t', trace run = t' ++ [Ev_close sockfd]
                   /\ existsb is_close_event t' = false)
  /\ (forall status, result run = Exit status ->
        existsb is_close_event (trace run) = false
        \/ exists t' e,
             trace run
             = t' ++ [Ev_close sockfd; Ev_perror "error closing socket" e]
             /\ status = EXIT_FAILURE)
  /\ (rv (env_connect env) = -1 ->
        existsb is_close_event (trace run) = false
        /\ forall v, result run <> Ret v).
Proof.
  cbv zeta.
  run_cases env argv0 args; rewrite E.
  - split; [| split].
    + intros v H. rewrite usage_cases in H. discriminate H.
    + intros status _. left. apply usage_no_close.
    + intros _. split; [apply usage_no_close |].
      intros v H. rewrite usage_cases in H. discriminate H.
  - split; [| split].
    + intros v H. discriminate H.
    + intros status _. left. reflexivity.
    + intros _. split; [reflexivity | discriminate].
  - split; [| split].
    + intros v H. discriminate H.
    + intros status _. left. reflexivity.
    + intros _. split; [reflexivity | discriminate].
  - destruct (resolved_no_close tc Htc) as [Hcl _].
    cbn [trace result fst snd].
    split; [| split].
    + intros v Hres.
      destruct (session_outcomes env addr port cmd Hfam)
        as [S | [(t & msg & e & S & _) | [(t & e & S & _) | (t & S & Ht & _)]]];
        rewrite S in Hres |- *; cbn [trace result fst snd] in Hres |- *;
        try discriminate Hres.
      injection Hres as <-. split; [reflexivity |].
      destruct (exchange_events_close_last env (rv (env_socket env)) cmd)
        as [Hx Hx5].
      exists (tc ++ Ev_socket (ss_family addr) SOCK_STREAM 0 :: t
                ++ firstn 5 (exchange_events env (rv (env_socket env)) cmd)).
      split.
      * rewrite Hx at 1. rewrite <- !app_assoc. cbn [app].
        rewrite <- !app_assoc. reflexivity.
      * rewrite existsb_app, Hcl. cbn [existsb is_close_event orb].
        rewrite existsb_app, Ht, Hx5. reflexivity.
    + intros status Hres.
      destruct (session_outcomes env addr port cmd Hfam)
        as [S | [(t & msg & e & S & Ht & _) |
                 [(t & e & S & _) | (t & S & _)]]];
        rewrite S in Hres |- *; cbn [trace result fst snd] in Hres |- *;
        try discriminate Hres.
      * left. rewrite existsb_app, Hcl. reflexivity.
      * left. rewrite existsb_app, Hcl. cbn [existsb is_close_event orb].
        rewrite existsb_app, Ht. reflexivity.
      * right. injection Hres as <-.
        destruct (exchange_events_close_last env (rv (env_socket env)) cmd)
          as [Hx _].
        exists (tc ++ Ev_socket (ss_family addr) SOCK_STREAM 0 :: t
                  ++ firstn 5 (exchange_events env (rv (env_socket env)) cmd)),
          e.
        split; [| reflexivity].
        rewrite Hx at 1. rewrite <- !app_assoc. cbn [app].
        rewrite <- !app_assoc. reflexivity.
    + intros Hk. rewrite session_cases. cbv zeta.
      destruct (rv (env_socket env) =? -1).
      * cbn [trace result fst snd].
        split; [| discriminate]. rewrite existsb_app, Hcl. reflexivity.
      * rewrite socket_connect_cases, Hfam, Hk.
        change (-1 =? -1) with true. cbv iota zeta.
        destruct (env_inet_ntop env (ss_family addr) _);
          cbn [trace result fst snd];
          (split; [| discriminate]); rewrite existsb_app, Hcl; reflexivity.
Qed.

Lemma main_socket_lifetime_witness :
  (exists t',
     trace (main env_peer_closed "client" ["127.0.0.1"; "9000"; "PING"])
     = t' ++ [Ev_close 3]
     /\ existsb is_close_event t' = false)
  /\ existsb is_close_event
       (trace (main env_refused "client" ["127.0.0.1"; "9000"; "PING"]))
     = false.
Proof.
  split.
  - apply (proj1 (main_socket_lifetime env_peer_closed "client"
                    ["127.0.0.1"; "9000"; "PING"]) 0).
    reflexivity.
  - apply (proj2 (proj2 (main_socket_lifetime env_refused "client"
                           ["127.0.0.1"; "9000"; "PING"]))).
    reflexivity.
Defined.

(** *** The help flag *)

(** C8 fails on the code: the option string "h:" makes [-h] an option that
    takes an argument, so the lone flag is reported by [getopt] as '?' and
    the program prints "Unknown option '-h'." with the usage text and exits
    with [EXIT_FAILURE].  The usage text with status 0 is only reached when
    something follows [-h]. *)
Theorem main_lone_help_flag (env : environment) (argv0 : string) :
  main env argv0 ["-h"] =
    (Ev_stderr ("Unknown option '-h'." ++ NL) :: usage_lines argv0,
     Exit EXIT_FAILURE)
  /\ EXIT_FAILURE <> 0
  /\ (forall arg rest,
        main env argv0 ("-h" :: arg :: rest)
        = (usage_lines argv0, Exit EXIT_SUCCESS)).
Proof.
  split; [reflexivity |]. split; [discriminate |].
  intros arg rest. reflexivity.
Qed.

End RunFacts.

(* ===================================================================== *)
(** * Arguments, stages and outcomes of a run                             *)
(* ===================================================================== *)

Module CoverageFacts.
Import Libc Sys Client Notions Coverage LibcFacts PortFacts FrameFacts
  AddressFacts RunFacts.

(** *** The scan of the arguments *)


Lemma skip_nonoptions_operands (args : list string) :
  forallb nonoption args = true -> skip_nonoptions args = (args, []).
Proof.
  induction args as [| a rest IH]; cbn [skip_nonoptions forallb]; trivial.
  intros H. apply andb_prop in H. destruct H as [-> H].
  now rewrite (IH H).
Qed.



Lemma code_nonneg (c : ascii) : 0 <= code c.
Proof. unfold code. apply N2Z.is_nonneg. Qed.




Lemma main_of_usage (env : environment) (argv0 : string)
    (args : list string) (code : Z) (msg : option string) :
  parse_arguments argv0 args = usage argv0 code msg ->
  main env argv0 args = usage argv0 code msg.
Proof.
  intros H. unfold main. rewrite H, !usage_cases. reflexivity.
Qed.

Lemma usage_failure_message {A} (argv0 msg : string) :
  cstr msg = msg ->
  @usage A argv0 EXIT_FAILURE (Some msg)
  = (Ev_stderr (msg ++ NL) :: usage_lines argv0, Exit EXIT_FAILURE).
Proof. intros H. rewrite usage_cases, H. reflexivity. Qed.







(** *** Runs without an option *)




Lemma getopt_no_options (argv0 : string) (args : list string) :
  no_options args = true ->
  getopt argv0 args "h:" =
    match snd (skip_nonoptions args) with
    | [] =>
        {| go_ret := -1; go_optopt := QUESTION; go_optarg := None;
           go_optind := 1; go_argv := argv0 :: args |}
    | elt :: after =>
        {| go_ret := -1; go_optopt := QUESTION; go_optarg := None;
           go_optind := 2;
           go_argv := argv0 :: elt :: fst (skip_nonoptions args) ++ after |}
    end.
Proof.
  unfold no_options, getopt.
  destruct (skip_nonoptions args) as [ops tl]. cbn [fst snd].
  destruct tl as [| elt after]; [reflexivity |].
  intros ->. reflexivity.
Qed.

Lemma parse_arguments_no_options (argv0 : string) (args : list string) :
  no_options args = true ->
  parse_arguments argv0 args =
    if (List.length args <? 3)%nat then
      usage argv0 EXIT_FAILURE (Some "Error: Too few arguments.")
    else if (3 <? List.length args)%nat then
      usage argv0 EXIT_FAILURE (Some "Error: Too many arguments.")
    else
      let g := getopt argv0 args "h:" in
      ([], Ret (argv_at (go_argv g) (go_optind g),
                argv_at (go_argv g) (go_optind g + 1),
                argv_at (go_argv g) (go_optind g + 2))).
Proof.
  intros Hno. unfold parse_arguments. cbv zeta.
  assert (Hret : go_ret (getopt argv0 args "h:") = -1).
  { rewrite (getopt_no_options argv0 args Hno).
    destruct (snd (skip_nonoptions args)); reflexivity. }
  rewrite Hret. change (negb (-1 =? -1)) with false. cbv iota.
  destruct (Nat.ltb_spec (List.length args) 3);
    destruct (Z.ltb_spec (Z.of_nat (S (List.length args))) 4); try lia;
    [reflexivity |].
  destruct (Nat.ltb_spec 3 (List.length args));
    destruct (Z.gtb_spec (Z.of_nat (S (List.length args))) 4); try lia;
    reflexivity.
Qed.

(** X1.  When no option is found among the arguments (all of them are
    operands, or a "--" comes before any option), fewer than three
    arguments give the usage error "Error: Too few arguments." and more
    than three give "Error: Too many arguments."; a "--" counts as an
    argument. *)
Theorem main_argument_count (env : environment) (argv0 : string)
    (args : list string) :
  no_options args = true ->
  ((List.length args < 3)%nat ->
     usage_error (main env argv0 args) argv0 "Error: Too few arguments.")
  /\ ((3 < List.length args)%nat ->
       usage_error (main env argv0 args) argv0 "Error: Too many arguments.").
Proof.
  intros Hno. pose proof (parse_arguments_no_options argv0 args Hno) as Hp.
  split; intros Hlen; unfold usage_error.
  - destruct (Nat.ltb_spec (List.length args) 3); [| lia].
    rewrite (main_of_usage env argv0 _ _ _ Hp).
    now apply usage_failure_message.
  - destruct (Nat.ltb_spec (List.length args) 3); [lia |].
    destruct (Nat.ltb_spec 3 (List.length args)); [| lia].
    rewrite (main_of_usage env argv0 _ _ _ Hp).
    now apply usage_failure_message.
Qed.

Lemma main_argument_count_witness :
  usage_error (main (env_reply []) "client" ["127.0.0.1"; "9000"])
    "client" "Error: Too few arguments."
  /\ usage_error
       (main (env_reply []) "client" ["--"; "127.0.0.1"; "9000"; "-x"])
       "client" "Error: Too many arguments.".
Proof.
  split.
  - apply (proj1 (main_argument_count (env_reply []) "client"
                    ["127.0.0.1"; "9000"] eq_refl)).
    cbn [List.length]. lia.
  - apply (proj2 (main_argument_count (env_reply []) "client"
                    ["--"; "127.0.0.1"; "9000"; "-x"] eq_refl)).
    cbn [List.length]. lia.
Defined.






(** *** More on the port text *)

Lemma scan_digits_nonneg (s : string) : forall acc any,
  0 <= acc -> 0 <= fst (fst (scan_digits acc any s)).
Proof.
  induction s as [| c r IH]; intros acc any Hacc; cbn [scan_digits fst].
  - exact Hacc.
  - destruct (isdigit c) eqn:E; [| exact Hacc].
    apply IH. unfold isdigit in E. apply andb_prop in E.
    destruct E as [E _]. apply Z.leb_le in E. unfold digit_value. lia.
Qed.

Lemma strtoumax_value_range (nptr : string) :
  0 <= st_value (strtoumax nptr) <= UINTMAX_MAX.
Proof.
  unfold strtoumax.
  destruct (take_sign (skip_space nptr)) as [neg body].
  pose proof (scan_digits_nonneg body 0 false ltac:(lia)) as Hnn.
  destruct (scan_digits 0 false body) as [[v any] rest]. cbn [fst] in Hnn.
  unfold UINTMAX_MAX.
  destruct (negb any); cbn [st_value]; [lia |].
  destruct (Z.gtb_spec v (2 ^ 64 - 1)); cbn [st_value]; [lia |].
  destruct neg; [| lia].
  pose proof (Z.mod_pos_bound (2 ^ 64 - v) (2 ^ 64) ltac:(lia)). lia.
Qed.

Lemma parse_in_port_t_ret_inv (binary_name text : string)
    (t : list event) (p : Z) :
  parse_in_port_t binary_name text = (t, Ret p) ->
  t = []
  /\ 0 <= p <= UINT16_MAX
  /\ p = st_value (strtoumax text)
  /\ st_errno (strtoumax text) = 0
  /\ is_nul (deref (st_endptr (strtoumax text))) = true.
Proof.
  rewrite parse_in_port_t_unfold. cbv zeta.
  pose proof (strtoumax_value_range text) as Hr.
  destruct (Z.eqb_spec (st_errno (strtoumax text)) 0) as [He | He];
    cbn [negb]; [| discriminate].
  destruct (is_nul (deref (st_endptr (strtoumax text)))) eqn:En;
    cbn [negb]; [| rewrite usage_cases; discriminate].
  destruct (Z.gtb_spec (st_value (strtoumax text)) UINT16_MAX) as [Hv | Hv];
    [rewrite usage_cases; discriminate |].
  intros H. injection H as <- <-.
  unfold UINT16_MAX in *.
  rewrite Z.mod_small by (change (2 ^ 16) with 65536; lia).
  repeat split; try lia; assumption.
Qed.

(** X6.  When [parse_in_port_t] returns, it has printed nothing, the
    conversion reported no error and consumed the whole text, and the port
    returned is the converted value itself, between 0 and 65535: the cast
    to [in_port_t] never changes the value. *)
Theorem parse_in_port_t_returns (binary_name text : string)
    (t : list event) (p : Z) :
  parse_in_port_t binary_name text = (t, Ret p) ->
  t = []
  /\ 0 <= p <= UINT16_MAX
  /\ p = st_value (strtoumax text)
  /\ st_errno (strtoumax text) = 0
  /\ is_nul (deref (st_endptr (strtoumax text))) = true.
Proof. apply parse_in_port_t_ret_inv. Qed.

Lemma parse_in_port_t_returns_witness :
  0 <= 443 <= UINT16_MAX /\ 443 = st_value (strtoumax " +443").
Proof.
  destruct (parse_in_port_t_returns "client" " +443" [] 443 eq_refl)
    as (_ & H1 & H2 & _).
  split; assumption.
Defined.

(** X7.  A minus sign is not refused as such: the numeral after it is
    converted and negated in [uintmax_t].  So "-0" (any numeral of value
    0) yields port 0, a numeral [v] with [2^64 - 65535 <= v <= 2^64 - 1]
    yields port [2^64 - v], and every other numeral that fits [uintmax_t]
    is refused with "in_port_t value out of range.". *)
Theorem parse_in_port_t_minus (binary_name digits : string) (v : Z) :
  denotes digits v ->
  v <= UINTMAX_MAX ->
  (v = 0 -> parse_in_port_t binary_name ("-" ++ digits) = ([], Ret 0))
  /\ (2 ^ 64 - UINT16_MAX <= v ->
       parse_in_port_t binary_name ("-" ++ digits) = ([], Ret (2 ^ 64 - v)))
  /\ (0 < v < 2 ^ 64 - UINT16_MAX ->
       usage_error (parse_in_port_t binary_name ("-" ++ digits)) binary_name
         "in_port_t value out of range.").
Proof.
  intros (d & Hd & <-) Hmax.
  destruct (numeral_front digits d Hd) as (Hne & Hc & Hd').
  pose proof (of_uint_nonneg d) as Hnn.
  assert (Hsign : take_sign (skip_space ("-" ++ digits))
                  = (true, (digits ++ "")%string)).
  { rewrite append_empty_r. reflexivity. }
  pose proof (strtoumax_run _ digits "" d true Hsign Hd' eq_refl) as E.
  rewrite Hne in E. cbn [negb] in E.
  destruct (Z.gtb_spec (Z.of_uint d) UINTMAX_MAX) as [Hbig | _]; [lia |].
  unfold UINTMAX_MAX, UINT16_MAX in *.
  assert (Hparse : parse_in_port_t binary_name ("-" ++ digits) =
            if (2 ^ 64 - Z.of_uint d) mod 2 ^ 64 >? 65535 then
              usage binary_name EXIT_FAILURE
                (Some "in_port_t value out of range.")
            else ([], Ret (((2 ^ 64 - Z.of_uint d) mod 2 ^ 64) mod 2 ^ 16))).
  { rewrite parse_in_port_t_unfold, E. reflexivity. }
  rewrite Hparse. split; [| split].
  - intros H0. rewrite H0. reflexivity.
  - intros Hv.
    rewrite (Z.mod_small (2 ^ 64 - Z.of_uint d)) by lia.
    destruct (Z.gtb_spec (2 ^ 64 - Z.of_uint d) 65535); [lia |].
    rewrite Z.mod_small by (change (2 ^ 16) with 65536; lia). reflexivity.
  - intros Hv.
    rewrite (Z.mod_small (2 ^ 64 - Z.of_uint d)) by lia.
    destruct (Z.gtb_spec (2 ^ 64 - Z.of_uint d) 65535); [| lia].
    now apply usage_is_usage_error.
Qed.

Lemma parse_in_port_t_minus_witness :
  parse_in_port_t "client" ("-" ++ "00") = ([], Ret 0)
  /\ parse_in_port_t "client" ("-" ++ "18446744073709551536")
     = ([], Ret (2 ^ 64 - 18446744073709551536))
  /\ usage_error (parse_in_port_t "client" ("-" ++ "1")) "client"
       "in_port_t value out of range.".
Proof.
  split; [| split].
  - apply (proj1 (parse_in_port_t_minus "client" "00" 0
                    ltac:(eexists; split; reflexivity)
                    ltac:(vm_compute; discriminate))).
    reflexivity.
  - apply (proj1 (proj2 (parse_in_port_t_minus "client"
                    "18446744073709551536" 18446744073709551536
                    ltac:(eexists; split; reflexivity)
                    ltac:(vm_compute; discriminate)))).
    vm_compute; discriminate.
  - apply (proj2 (proj2 (parse_in_port_t_minus "client" "1" 1
                    ltac:(eexists; split; reflexivity)
                    ltac:(vm_compute; discriminate)))).
    split; reflexivity.
Defined.

(** X8.  A text without any digit where the number should start - white
    space, then at most one sign, then something that is no digit - is
    refused with "Invalid characters in input." unless it is the empty
    text: blanks alone, a lone sign, or letters do not pass. *)
Theorem parse_in_port_t_no_digits (binary_name ws sign tail : string) :
  all_space ws = true ->
  sign = "" \/ sign = "+" \/ sign = "-" ->
  isdigit (deref tail) = false ->
  (sign = "" -> isspace (deref tail) = false /\ is_sign (deref tail) = false) ->
  is_nul (deref (ws ++ sign ++ tail)) = false ->
  usage_error (parse_in_port_t binary_name (ws ++ sign ++ tail)) binary_name
    "Invalid characters in input.".
Proof.
  intros Hws Hsign Htail Hplain Hne.
  assert (Hfront : exists neg,
            take_sign (skip_space (ws ++ sign ++ tail))
            = (neg, ("" ++ tail)%string)).
  { rewrite skip_space_app by exact Hws.
    destruct Hsign as [-> | [-> | ->]].
    - destruct (Hplain eq_refl) as [Hs Hg]. exists false. cbn [append].
      rewrite skip_space_plain by exact Hs. now apply take_sign_plain.
    - exists false. reflexivity.
    - exists true. reflexivity. }
  destruct Hfront as (neg & Hfront).
  pose proof (strtoumax_run _ "" tail Decimal.Nil neg Hfront eq_refl Htail)
    as E.
  cbn [nonempty negb] in E.
  rewrite parse_in_port_t_unfold, E. cbv zeta.
  cbn [st_errno st_endptr]. change (negb (0 =? 0)) with false. cbv iota.
  rewrite Hne. cbn [negb]. now apply usage_is_usage_error.
Qed.

Lemma parse_in_port_t_no_digits_witness :
  usage_error (parse_in_port_t "client" (" " ++ "" ++ "")) "client"
    "Invalid characters in input."
  /\ usage_error (parse_in_port_t "client" ("" ++ "-" ++ "")) "client"
       "Invalid characters in input."
  /\ usage_error (parse_in_port_t "client" ("" ++ "" ++ "http")) "client"
       "Invalid characters in input.".
Proof.
  split; [| split].
  - apply (parse_in_port_t_no_digits "client" " " "" "");
      try reflexivity; [now left | intros _; split; reflexivity].
  - apply (parse_in_port_t_no_digits "client" "" "-" "");
      try reflexivity; [now right; right | discriminate].
  - apply (parse_in_port_t_no_digits "client" "" "" "http");
      try reflexivity; [now left | intros _; split; reflexivity].
Defined.

(** X9.  The decimal rendering of a port is read back as that port: for
    every [p] between 0 and 65535 the text that the client prints for [p]
    is accepted with result [p]. *)
Theorem parse_in_port_t_dec (binary_name : string) (p : Z) :
  0 <= p <= UINT16_MAX ->
  parse_in_port_t binary_name (dec p) = ([], Ret p).
Proof.
  intros Hp.
  assert (Hden : exists d, NilZero.uint_of_string (dec p) = Some d
                           /\ Z.of_uint d = p).
  { unfold dec. destruct p as [| q | q]; [| | lia].
    - exists (Decimal.D0 Decimal.Nil). split; reflexivity.
    - exists (Pos.to_uint q). split.
      + cbn [Z.to_int NilZero.string_of_int].
        apply NilZero.usu, Unsigned.to_uint_nonnil.
      + unfold Z.of_uint. now rewrite Unsigned.of_to. }
  destruct Hden as (d & Hd & Hv).
  rewrite (parse_numeral binary_name (dec p) d Hd), Hv.
  unfold UINTMAX_MAX, UINT16_MAX in *.
  destruct (Z.gtb_spec p (2 ^ 64 - 1)); [lia |].
  destruct (Z.gtb_spec p 65535); [lia | reflexivity].
Qed.

Lemma parse_in_port_t_dec_witness :
  parse_in_port_t "client" (dec 65535) = ([], Ret 65535).
Proof.
  apply (parse_in_port_t_dec "client" 65535).
  split; vm_compute; discriminate.
Defined.

(** *** The stages of a run *)



(** [session] on an endpoint of a supported family, case by case. *)
Lemma session_steps (env : environment) (addr : sockaddr_storage)
    (port : Z) (cmd : string) :
  (ss_family addr =? AF_INET) || (ss_family addr =? AF_INET6) = true ->
  let sockfd := rv (env_socket env) in
  let created := Ev_socket (ss_family addr) SOCK_STREAM 0 in
  session env addr port (Some cmd) =
    if sockfd =? -1 then
      ([created; Ev_stderr ("Socket creation failed" ++ NL)],
       Exit EXIT_FAILURE)
    else
      match env_inet_ntop env (ss_family addr)
              (if ss_family addr =? AF_INET then sin_addr addr
               else sin6_addr addr) with
      | inr e => ([created; Ev_perror "inet_ntop" e], Exit EXIT_FAILURE)
      | inl addr_str =>
          if rv (env_connect env) =? -1 then
            (firstn 4 (setup_events sockfd addr port addr_str)
               ++ [Ev_perror "connect" (errno (env_connect env))],
             Exit EXIT_FAILURE)
          else if rv (env_close env) =? -1 then
            (setup_events sockfd addr port addr_str
               ++ exchange_events env sockfd cmd
               ++ [Ev_perror "error closing socket"
                     (errno (env_close env))],
             Exit EXIT_FAILURE)
          else
            (setup_events sockfd addr port addr_str
               ++ exchange_events env sockfd cmd,
             Ret 0)
      end.
Proof.
  intros Hfam sockfd created. rewrite session_cases. cbv zeta.
  fold sockfd. destruct (sockfd =? -1); [reflexivity |].
  rewrite socket_connect_cases, Hfam.
  destruct (env_inet_ntop env (ss_family addr) _) as [addr_str | e];
    [| reflexivity].
  cbv zeta. destruct (rv (env_connect env) =? -1); [reflexivity |].
  destruct (rv (env_close env) =? -1); reflexivity.
Qed.

Lemma resolved_family (ip : string) (tc : list event)
    (addr : sockaddr_storage) :
  convert_address ip = (tc, Ret addr) ->
  (ss_family addr =? AF_INET) || (ss_family addr =? AF_INET6) = true
  /\ ((valid_ipv4 ip /\ ss_family addr = AF_INET)
      \/ (valid_ipv6 ip /\ ss_family addr = AF_INET6)).
Proof.
  rewrite convert_address_cases. unfold valid_ipv4, valid_ipv6.
  rewrite inet_pton_AF_INET, inet_pton_AF_INET6.
  destruct (inet_pton4 ip) as [d4 |].
  - intros [= _ <-]. split; [reflexivity |]. left. split; [eauto | reflexivity].
  - destruct (inet_pton6 ip) as [d6 |]; [| discriminate].
    intros [= _ <-]. split; [reflexivity |]. right.
    split; [eauto | reflexivity].
Qed.




Lemma syscalls_usage_lines (argv0 : string) : syscalls (usage_lines argv0) = [].
Proof. reflexivity. Qed.





(** *** Outcomes of the session *)

Lemma main_resolved (env : environment) (argv0 ip ptext cmd : string)
    (port : Z) (tc : list event) (addr : sockaddr_storage) :
  resolved argv0 ip ptext cmd port tc addr ->
  main env argv0 [ip; ptext; cmd]
  = (tc ++ trace (session env addr port (Some cmd)),
     result (session env addr port (Some cmd)))
  /\ (ss_family addr =? AF_INET) || (ss_family addr =? AF_INET6) = true.
Proof.
  intros (H1 & H2 & H3 & Hp & Hc). split.
  - apply main_operands; assumption.
  - apply (resolved_family ip tc addr Hc).
Qed.

(** X12.  With valid arguments, each failure of the environment ends the
    run with [EXIT_FAILURE] right after its own report and before any
    later step: a failed [socket] is reported by the fixed text
    "Socket creation failed" (no system diagnostic) and nothing is
    rendered or connected; a failed [inet_ntop] by [perror] before anything
    is printed about the connection; a failed [connect] by [perror] with
    the errno of [connect], without "Connected to" and without any
    exchange; a failed [close] by [perror] with the errno of [close], after
    the whole exchange has taken place. *)
Theorem main_failure_reports (env : environment)
    (argv0 ip ptext cmd : string) (port : Z) (tc : list event)
    (addr : sockaddr_storage) :
  resolved argv0 ip ptext cmd port tc addr ->
  let sockfd := rv (env_socket env) in
  let rendered :=
    env_inet_ntop env (ss_family addr)
      (if ss_family addr =? AF_INET then sin_addr addr else sin6_addr addr) in
  (sockfd = -1 ->
     main env argv0 [ip; ptext; cmd] =
       (tc ++ [Ev_socket (ss_family addr) SOCK_STREAM 0;
               Ev_stderr ("Socket creation failed" ++ NL)],
        Exit EXIT_FAILURE))
  /\ (forall e, sockfd <> -1 -> rendered = inr e ->
       main env argv0 [ip; ptext; cmd] =
         (tc ++ [Ev_socket (ss_family addr) SOCK_STREAM 0;
                 Ev_perror "inet_ntop" e],
          Exit EXIT_FAILURE))
  /\ (forall addr_str,
       sockfd <> -1 -> rendered = inl addr_str ->
       rv (env_connect env) = -1 ->
       main env argv0 [ip; ptext; cmd] =
         (tc ++ [Ev_socket (ss_family addr) SOCK_STREAM 0;
                 Ev_stdout ("Connecting to " ++ cstr addr_str ++ ":"
                              ++ dec port ++ NL);
                 Ev_stdout ("Sock fd: " ++ dec sockfd ++ NL
                              ++ "Addr: " ++ dec (ss_family addr) ++ NL
                              ++ "Size: " ++ dec SIZEOF_SOCKADDR_STORAGE);
                 Ev_connect sockfd
                   {| ss_family := ss_family addr; ss_port := htons port;
                      sin_addr := sin_addr addr;
                      sin6_addr := sin6_addr addr |}
                   SIZEOF_SOCKADDR_STORAGE;
                 Ev_perror "connect" (errno (env_connect env))],
          Exit EXIT_FAILURE))
  /\ (forall addr_str,
       sockfd <> -1 -> rendered = inl addr_str ->
       rv (env_connect env) <> -1 ->
       rv (env_close env) = -1 ->
       main env argv0 [ip; ptext; cmd] =
         (tc ++ setup_events sockfd addr port addr_str
             ++ exchange_events env sockfd cmd
             ++ [Ev_perror "error closing socket" (errno (env_close env))],
          Exit EXIT_FAILURE)).
Proof.
  intros Hr sockfd rendered.
  destruct (main_resolved env argv0 ip ptext cmd port tc addr Hr)
    as [Hmain Hfam].
  rewrite Hmain, (session_steps env addr port cmd Hfam). cbv zeta.
  fold sockfd. fold rendered.
  split; [| split; [| split]].
  - intros ->. reflexivity.
  - intros e Hs Hn. destruct (Z.eqb_spec sockfd (-1)); [contradiction |].
    rewrite Hn. reflexivity.
  - intros addr_str Hs Hn Hk.
    destruct (Z.eqb_spec sockfd (-1)); [contradiction |].
    rewrite Hn, Hk. reflexivity.
  - intros addr_str Hs Hn Hk Hcl.
    destruct (Z.eqb_spec sockfd (-1)); [contradiction |].
    rewrite Hn, Hcl.
    destruct (Z.eqb_spec (rv (env_connect env)) (-1)); [contradiction |].
    reflexivity.
Qed.

Lemma main_failure_reports_witness :
  main env_refused "client" ["127.0.0.1"; "9000"; "PING"] =
    ([Ev_stdout ("IPv4 found" ++ NL)]
       ++ [Ev_socket AF_INET SOCK_STREAM 0;
           Ev_stdout ("Connecting to " ++ cstr "127.0.0.1" ++ ":"
                        ++ dec 9000 ++ NL);
           Ev_stdout ("Sock fd: " ++ dec 3 ++ NL
                        ++ "Addr: " ++ dec AF_INET ++ NL
                        ++ "Size: " ++ dec SIZEOF_SOCKADDR_STORAGE);
           Ev_connect 3
             {| ss_family := AF_INET; ss_port := htons 9000;
                sin_addr := [127; 0; 0; 1];
                sin6_addr := repeat 0 NS_IN6ADDRSZ |}
             SIZEOF_SOCKADDR_STORAGE;
           Ev_perror "connect" ECONNREFUSED],
     Exit EXIT_FAILURE).
Proof.
  refine (proj1 (proj2 (proj2
            (main_failure_reports env_refused "client" "127.0.0.1" "9000"
               "PING" 9000 [Ev_stdout ("IPv4 found" ++ NL)]
               {| ss_family := AF_INET; ss_port := 0;
                  sin_addr := [127; 0; 0; 1];
                  sin6_addr := repeat 0 NS_IN6ADDRSZ |} _)))
            "127.0.0.1" _ _ _).
  - unfold resolved. repeat split.
  - discriminate.
  - reflexivity.
  - reflexivity.
Defined.

(** *** The bytes of the exchange *)

Lemma bytes_to_app (fd : Z) (a b : list event) :
  bytes_to fd (a ++ b) = bytes_to fd a ++ bytes_to fd b.
Proof.
  induction a as [| e a IH]; cbn [app bytes_to]; trivial.
  destruct e; trivial; destruct (_ =? fd); rewrite IH; trivial;
    now rewrite app_assoc.
Qed.

Lemma bytes_to_resolved (fd : Z) (tc : list event) :
  tc = [] \/ tc = [Ev_stdout ("IPv4 found" ++ NL)] -> bytes_to fd tc = [].
Proof. intros [-> | ->]; reflexivity. Qed.

(** X11.  On an established connection whose descriptor is not the
    standard output, what the run sends on the socket is the frame of its
    third argument and nothing else, and what it writes to the standard
    output descriptor, once [recv] has delivered a reply, is that reply cut
    to [LINE_LENGTH] bytes: the whole reply when it has at most 1024
    bytes. *)
Theorem main_exchange_bytes (env : environment)
    (argv0 ip ptext cmd : string) (port : Z) (tc : list event)
    (addr : sockaddr_storage) (addr_str : string) :
  established env argv0 ip ptext cmd port tc addr addr_str ->
  rv (env_socket env) <> STDOUT_FILENO ->
  let t := trace (main env argv0 [ip; ptext; cmd]) in
  bytes_to (rv (env_socket env)) t
    = Z.of_nat (strlen cmd) mod 2 ^ 8 :: payload_of cmd
  /\ (forall reply, env_recv env = Recv_data reply ->
        bytes_to STDOUT_FILENO t = firstn LINE_LENGTH reply
        /\ (List.length (bytes_to STDOUT_FILENO t) <= LINE_LENGTH)%nat
        /\ ((List.length reply <= LINE_LENGTH)%nat ->
            bytes_to STDOUT_FILENO t = reply)).
Proof.
  intros He Hfd t.
  assert (Htc : tc = [] \/ tc = [Ev_stdout ("IPv4 found" ++ NL)]).
  { destruct He as (_ & _ & _ & _ & Hc & _).
    exact (resolved_trace ip tc addr Hc). }
  assert (Hsock : bytes_to (rv (env_socket env)) t
                  = Z.of_nat (strlen cmd) mod 2 ^ 8 :: payload_of cmd).
  { unfold t.
    rewrite (main_connected env argv0 ip ptext cmd port tc addr addr_str He).
    cbv zeta.
    destruct (rv (env_close env) =? -1); cbn [trace fst];
      rewrite !bytes_to_app, (bytes_to_resolved _ tc Htc);
      unfold setup_events, exchange_events; cbn [bytes_to app];
      rewrite !Z.eqb_refl;
      destruct (Z.eqb_spec STDOUT_FILENO (rv (env_socket env)));
      try congruence; cbn [app]; now rewrite ?app_nil_r. }
  assert (Hout : bytes_to STDOUT_FILENO t = fst (received env)).
  { unfold t.
    rewrite (main_connected env argv0 ip ptext cmd port tc addr addr_str He).
    cbv zeta.
    destruct (rv (env_close env) =? -1); cbn [trace fst];
      rewrite !bytes_to_app, (bytes_to_resolved _ tc Htc);
      unfold setup_events, exchange_events; cbn [bytes_to app];
      rewrite !Z.eqb_refl;
      destruct (Z.eqb_spec (rv (env_socket env)) STDOUT_FILENO);
      try congruence; cbn [app]; now rewrite ?app_nil_r. }
  split; [exact Hsock |].
  intros reply Hr. rewrite Hout. unfold received. rewrite Hr. cbn [fst].
  split; [reflexivity |]. split.
  - apply firstn_le_length.
  - intros Hlen. now apply firstn_all2.
Qed.

Lemma main_exchange_bytes_witness :
  bytes_to 3 (trace (main (env_reply [80; 79; 78; 71]) "client"
                       ["127.0.0.1"; "9000"; "PING"]))
  = Z.of_nat (strlen "PING") mod 2 ^ 8 :: payload_of "PING".
Proof.
  refine (proj1 (main_exchange_bytes (env_reply [80; 79; 78; 71]) "client"
                   "127.0.0.1" "9000" "PING" 9000
                   [Ev_stdout ("IPv4 found" ++ NL)]
                   {| ss_family := AF_INET; ss_port := 0;
                      sin_addr := [127; 0; 0; 1];
                      sin6_addr := repeat 0 NS_IN6ADDRSZ |}
                   "127.0.0.1" _ _)).
  - unfold established. repeat split; discriminate.
  - discriminate.
Defined.

(** *** Exit status *)




(** *** Frames on a stream *)

Lemma app_same_length {A} (a b r1 r2 : list A) :
  List.length a = List.length b -> a ++ r1 = b ++ r2 -> a = b /\ r1 = r2.
Proof.
  revert b. induction a as [| x a IH]; intros [| y b] Hlen H;
    try discriminate Hlen.
  - now split.
  - cbn [app] in H. injection H as -> H. injection Hlen as Hlen.
    destruct (IH b Hlen H) as [-> ->]. now split.
Qed.

Lemma code_injective (c d : ascii) : code c = code d -> c = d.
Proof.
  unfold code. intros H. apply N2Z.inj in H.
  rewrite <- (ascii_N_embedding c), <- (ascii_N_embedding d). now rewrite H.
Qed.

Lemma payload_of_injective (c1 c2 : string) :
  payload_of c1 = payload_of c2 -> cstr c1 = cstr c2.
Proof.
  unfold payload_of. generalize (cstr c1) (cstr c2). clear c1 c2.
  induction s as [| a s IH]; intros [| b s'] H; try discriminate H; trivial.
  cbn [list_ascii_of_string map] in H. injection H as Hc H.
  apply code_injective in Hc. subst b. now rewrite (IH s' H).
Qed.

(** X14.  Frames of commands of at most 255 characters are
    self-delimiting: if the bytes sent for one command, followed by
    anything, equal the bytes sent for another, followed by anything, then
    the two commands have the same text and what follows is the same.  A
    reader of the stream can therefore cut it into commands in one way
    only. *)
Theorem write_to_socket_self_delimiting (env1 env2 : environment)
    (fd1 fd2 : Z) (c1 c2 : string) (rest1 rest2 : list Z) :
  (strlen c1 <= 255)%nat -> (strlen c2 <= 255)%nat ->
  bytes_to fd1 (trace (write_to_socket env1 fd1 c1)) ++ rest1
  = bytes_to fd2 (trace (write_to_socket env2 fd2 c2)) ++ rest2 ->
  cstr c1 = cstr c2 /\ rest1 = rest2.
Proof.
  intros H1 H2. rewrite !write_to_socket_events. cbn [trace fst].
  rewrite !bytes_to_frame. cbn [app]. intros H. injection H as HL H.
  change (2 ^ 8) with 256 in HL.
  rewrite !Z.mod_small in HL by lia. apply Nat2Z.inj in HL.
  destruct (app_same_length (payload_of c1) (payload_of c2) rest1 rest2)
    as [Hp Hr]; trivial.
  - now rewrite !payload_length.
  - split; [now apply payload_of_injective | exact Hr].
Qed.

Lemma write_to_socket_self_delimiting_witness :
  cstr "PING" = cstr ("PING" ++ String NUL "tail") /\ [1; 2] = [1; 2].
Proof.
  apply (write_to_socket_self_delimiting (env_reply []) env_refused 3 5
           "PING" ("PING" ++ String NUL "tail") [1; 2] [1; 2]).
  - cbn. lia.
  - cbn. lia.
  - reflexivity.
Defined.

End CoverageFacts.
